(** * Token-list maintenance for the Ethereum and Smart Chain modules

    A shallow embedding of [script/blockchain/ethereum.ts] and of its twin
    [script/blockchain/smartchain.ts]: the pair filter ([checkTradingPair]),
    the anchor-token classifier ([primaryTokenIndex]), the token
    canonicalisation ([tokenInfoFromSubgraphToken]) and the merge loop of
    [generateTokenlist].

    Conventions of the embedding.
    - JavaScript strings are [string]s that hold the text in UTF-8;
      [toUpperCase] and [toLowerCase] act on the ASCII letters (symbols and
      hexadecimal addresses are ASCII).
    - A value that JavaScript may find [undefined] is an [option].  A
      [null] id or token behaves as an absent one; a [null] reserve behaves
      as the number 0 in both tests that read it, and is that number here.
    - An operation that may throw returns a [result]; [console.log] is kept
      only for the evaluation of its arguments, which may throw.
    - Numbers decoded from JSON are finite, hence rationals ([Q]); the
      value of [parseInt] is a [number], which adds [NaN]. *)

From Stdlib Require Import Bool Ascii String DecimalString List ZArith QArith Lia.
Import ListNotations.

Local Open Scope string_scope.
Local Open Scope list_scope.
Local Open Scope Z_scope.

Set Implicit Arguments.

(** ** Exceptions *)

(** [TypeError]: a property read on [undefined].  [InvalidAddress]: the
    error of the address checksum on a text that is no address. *)
Inductive error : Type :=
| TypeError
| InvalidAddress.

Inductive result (A : Type) : Type :=
| Ok (a : A)
| Throw (e : error).

Arguments Ok {A} a.
Arguments Throw {A} e.

Definition bind {A B : Type} (m : result A) (k : A -> result B) : result B :=
  match m with
  | Ok a => k a
  | Throw e => Throw e
  end.

Notation "x <- m ;; k" := (bind m (fun x => k))
  (at level 61, m at next level, right associativity).

(** Reading a property of [v]: throws when [v] is [undefined]. *)
Definition deref {A : Type} (v : option A) : result A :=
  match v with
  | Some a => Ok a
  | None => Throw TypeError
  end.

(** ** Strings *)

Definition is_upper_letter (c : ascii) : bool :=
  let n := nat_of_ascii c in (65 <=? n)%nat && (n <=? 90)%nat.

Definition is_lower_letter (c : ascii) : bool :=
  let n := nat_of_ascii c in (97 <=? n)%nat && (n <=? 122)%nat.

Definition upper_ascii (c : ascii) : ascii :=
  if is_lower_letter c then ascii_of_nat (nat_of_ascii c - 32) else c.

Definition lower_ascii (c : ascii) : ascii :=
  if is_upper_letter c then ascii_of_nat (nat_of_ascii c + 32) else c.

Fixpoint toUpperCase (s : string) : string :=
  match s with
  | EmptyString => EmptyString
  | String c s' => String (upper_ascii c) (toUpperCase s')
  end.

Fixpoint toLowerCase (s : string) : string :=
  match s with
  | EmptyString => EmptyString
  | String c s' => String (lower_ascii c) (toLowerCase s')
  end.

(** [xs.find(f)]: the first element that satisfies [f], if any. *)
Definition find_first {A : Type} (f : A -> bool) (xs : list A) : option A :=
  List.find f xs.

(** [v != undefined] and [v === undefined] on the result of [find]. *)
Definition is_defined {A : Type} (v : option A) : bool :=
  match v with
  | Some _ => true
  | None => false
  end.

(** ** Numbers *)

(** The value of [parseInt]: [NaN], or the integer read.  [Num z] stands for
    the double nearest to [z]. *)
Inductive number : Type :=
| NaN
| Num (z : Z).

Definition Qltb (x y : Q) : bool := negb (Qle_bool y x).

(** *** [parseInt] with no radix argument *)

(** The blanks that [parseInt] skips are the white space and the line
    terminators of ECMAScript.  Those of one byte: TAB, LF, VT, FF, CR and
    the space. *)
Definition is_whitespace (c : ascii) : bool :=
  let n := nat_of_ascii c in
  ((9 <=? n)%nat && (n <=? 13)%nat) || (n =? 32)%nat.

(** A byte that starts a character of several bytes. *)
Definition is_lead (c : ascii) : bool := (128 <=? nat_of_ascii c)%nat.

(** The blank of two bytes: U+00A0. *)
Definition is_blank2 (c1 c2 : ascii) : bool :=
  (nat_of_ascii c1 =? 194)%nat && (nat_of_ascii c2 =? 160)%nat.

(** The blanks of three bytes: U+1680, U+2000 to U+200A, U+2028, U+2029,
    U+202F, U+205F, U+3000 and U+FEFF. *)
Definition is_blank3 (c1 c2 c3 : ascii) : bool :=
  let n1 := nat_of_ascii c1 in
  let n2 := nat_of_ascii c2 in
  let n3 := nat_of_ascii c3 in
  ((n1 =? 225) && (n2 =? 154) && (n3 =? 128))%nat
  || ((n1 =? 226) && (n2 =? 128)
      && (((128 <=? n3) && (n3 <=? 138))
          || (n3 =? 168) || (n3 =? 169) || (n3 =? 175)))%nat
  || ((n1 =? 226) && (n2 =? 129) && (n3 =? 159))%nat
  || ((n1 =? 227) && (n2 =? 128) && (n3 =? 128))%nat
  || ((n1 =? 239) && (n2 =? 187) && (n3 =? 191))%nat.

Fixpoint trim_start (s : string) : string :=
  match s with
  | String c s' =>
      if is_whitespace c then trim_start s'
      else if is_lead c then
        match s' with
        | String c2 s2 =>
            if is_blank2 c c2 then trim_start s2
            else
              match s2 with
              | String c3 s3 =>
                  if is_blank3 c c2 c3 then trim_start s3 else s
              | EmptyString => s
              end
        | EmptyString => s
        end
      else s
  | EmptyString => EmptyString
  end.

(** The text is one blank. *)
Definition blank (b : string) : bool :=
  match b with
  | String c EmptyString => is_whitespace c
  | String c1 (String c2 EmptyString) => is_blank2 c1 c2
  | String c1 (String c2 (String c3 EmptyString)) => is_blank3 c1 c2 c3
  | _ => false
  end.

(** The value of [c] as a digit in [radix], if it is one. *)
Definition digit_value (radix : Z) (c : ascii) : option Z :=
  let n := Z.of_nat (nat_of_ascii c) in
  let v :=
    if (48 <=? n) && (n <=? 57) then Some (n - 48)
    else if (97 <=? n) && (n <=? 122) then Some (n - 87)
    else if (65 <=? n) && (n <=? 90) then Some (n - 55)
    else None in
  match v with
  | Some d => if d <? radix then Some d else None
  | None => None
  end.

(** Reads the longest prefix of digits; [acc] is [None] until a digit has
    been read. *)
Fixpoint read_digits (radix : Z) (s : string) (acc : option Z) : option Z :=
  match s with
  | EmptyString => acc
  | String c s' =>
      match digit_value radix c with
      | Some d =>
          read_digits radix s'
            (Some (match acc with Some a => a * radix + d | None => d end))
      | None => acc
      end
  end.

Definition parseInt (text : string) : number :=
  let s := trim_start text in
  let '(sign, s) :=
    match s with
    | String "-" s' => (-1, s')
    | String "+" s' => (1, s')
    | _ => (1, s)
    end in
  let '(radix, s) :=
    match s with
    | String "0" (String "x" s') => (16, s')
    | String "0" (String "X" s') => (16, s')
    | _ => (10, s)
    end in
  match read_digits radix s None with
  | Some m => Num (sign * m)
  | None => NaN
  end.

(** ** Data model *)

(** [TokenInfo] and [PairInfo] are the interfaces of [generic/subgraph] as
    this module reads them.  [decimals] holds the text that
    [token.decimals.toString()] yields.  The fields of a pair that
    [checkTradingPair] tests for presence are optional: [None] is a field
    that is [undefined] and, for the id and the tokens, one that is
    [null]. *)
Record TokenInfo : Type := mkTokenInfo {
  id : string;
  symbol : string;
  name : string;
  decimals : string
}.

Record PairInfo : Type := mkPairInfo {
  pair_id : option string;
  reserveUSD : option Q;
  token0 : option TokenInfo;
  token1 : option TokenInfo
}.

(** Modelled from the spec: the class [TokenItem] is declared in
    [generic/tokenlists], which is not part of the sources at hand.  The
    fields are those of the specification's canonical token, in the order of
    the constructor call in [tokenInfoFromSubgraphToken]. *)
Record TokenItem : Type := mkTokenItem {
  assetId : string;
  standard : string;
  address : string;
  item_name : string;
  item_symbol : string;
  item_decimals : number;
  logoUri : string;
  tags : list string
}.

(** An element of the array that [getTradingPairs] delivers: anything that
    is not an object, [null], or an object read as a [PairInfo]. *)
Inductive raw : Type :=
| NotObject
| Null
| Obj (p : PairInfo).

(** ** The token list *)

Definition hasAddress (a : string) (tokens : list TokenItem) : bool :=
  existsb (fun t => String.eqb (address t) a) tokens.

(** Modelled from the spec: [addPairIfNeeded] is defined in
    [generic/tokenlists], which is not part of the sources at hand.  Per the
    specification it makes sure that both tokens are in the list, compared by
    checksummed address, appending those that are absent, first [tokenA] then
    [tokenB]; an entry already present is left as it is. *)
Definition addTokenIfNeeded (t : TokenItem) (tokens : list TokenItem)
  : list TokenItem :=
  if hasAddress (address t) tokens then tokens else tokens ++ [t].

Definition addPairIfNeeded (tokenA tokenB : TokenItem)
  (tokens : list TokenItem) : list TokenItem :=
  addTokenIfNeeded tokenB (addTokenIfNeeded tokenA tokens).

(** [xs.forEach(f)] for a callback that may throw: the first exception ends
    the loop. *)
Fixpoint forEach {A : Type} (f : A -> result unit) (xs : list A)
  : result unit :=
  match xs with
  | [] => Ok tt
  | x :: xs' => _ <- f x ;; forEach f xs'
  end.

(** ** The chain module

    [ethereum.ts] and [smartchain.ts] are the same text up to their
    constants; the section is that text, the constants and the imports of
    [generic/] being its variables.  The names are those of [ethereum.ts]. *)
Section Chain.

(** The constant [PrimaryTokens]. *)
Variable PrimaryTokens : list string.
(** The coin number, the token standard and the chain name handed to
    [assetID], [TokenItem] and [logoURI]. *)
Variable coin : Z.
Variable standardTag : string.
Variable chainName : string.
(** [getChainAssetLogoPath] of [generic/repo-structure], at this chain. *)
Variable getChainAssetLogoPath : string -> string.
(** [toChecksum] of [generic/eth-address]; it throws on a text that is no
    address. *)
Variable toChecksum : string -> result string.
(** [assetID] and [logoURI] of [generic/asset]. *)
Variable assetID : Z -> string -> string.
Variable logoURI : string -> string -> string -> string.

(** The file system is an argument: [isPathExistsSync] maps a path to
    whether it exists. *)
Definition checkEthTokenExists (isPathExistsSync : string -> bool)
  (id_ : string) (tokenAllowlist : list string) : bool :=
  let logoPath := getChainAssetLogoPath id_ in
  if negb (isPathExistsSync logoPath) then false
  else if negb (is_defined
                  (find_first
                     (fun t => String.eqb (toLowerCase id_) (toLowerCase t))
                     tokenAllowlist))
  then false
  else true.

Definition isTokenPrimary (token : TokenInfo) : bool :=
  is_defined
    (find_first (fun t => String.eqb t (toUpperCase (symbol token)))
       PrimaryTokens).

(** Which token of the pair is the primary token: 1 for the first, 2 for
    the second, 0 for none.  [pair.token1] is read only when the first
    token is not primary. *)
Definition primaryTokenIndex (pair : PairInfo) : result Z :=
  t0 <- deref (token0 pair) ;;
  if isTokenPrimary t0 then Ok 1
  else
    t1 <- deref (token1 pair) ;;
    if isTokenPrimary t1 then Ok 2 else Ok 0.

(** [!pair.id], [!pair.reserveUSD], [!pair.token0], [!pair.token1]. *)
Definition not_id (v : option string) : bool :=
  match v with
  | None => true
  | Some s => String.eqb s ""
  end.

Definition not_number (v : option Q) : bool :=
  match v with
  | None => true
  | Some q => Qeq_bool q 0
  end.

Definition not_object {A : Type} (v : option A) : bool :=
  negb (is_defined v).

(** The condition of the first [if] of [checkTradingPair]. *)
Definition structurallyEmpty (pair : PairInfo) : bool :=
  not_id (pair_id pair) && not_number (reserveUSD pair)
  && not_object (token0 pair) && not_object (token1 pair).

(** [pair.reserveUSD < minLiquidity]; [undefined] compares as [NaN], which
    is below nothing. *)
Definition belowLiquidity (pair : PairInfo) (minLiquidity : Q) : bool :=
  match reserveUSD pair with
  | Some r => Qltb r minLiquidity
  | None => false
  end.

(** The arguments of the three [console.log] calls of [checkTradingPair]:
    [pair.token0.symbol] and [pair.token1.symbol]. *)
Definition logSymbols (pair : PairInfo) : result unit :=
  _ <- deref (token0 pair) ;;
  _ <- deref (token1 pair) ;;
  Ok tt.

Definition checkTradingPair (isPathExistsSync : string -> bool)
  (pair : PairInfo) (minLiquidity : Q) (tokenAllowlist : list string)
  : result bool :=
  if structurallyEmpty pair then Ok false
  else if belowLiquidity pair minLiquidity then Ok false
  else
    t0 <- deref (token0 pair) ;;
    if negb (checkEthTokenExists isPathExistsSync (id t0) tokenAllowlist)
    then _ <- logSymbols pair ;; Ok false
    else
      t1 <- deref (token1 pair) ;;
      if negb (checkEthTokenExists isPathExistsSync (id t1) tokenAllowlist)
      then _ <- logSymbols pair ;; Ok false
      else
        i <- primaryTokenIndex pair ;;
        if i =? 0 then _ <- logSymbols pair ;; Ok false
        else Ok true.

(** The callback of the first [forEach] of [retrieveUniswapPairs], as a
    function of the array [filtered]: the [try] block pushes the pair when
    [checkTradingPair] returns [true]; the [catch] block logs and goes on. *)
Definition filterStep (isPathExistsSync : string -> bool)
  (minLiquidity : Q) (allowlist : list string)
  (filtered : list PairInfo) (x : raw) : list PairInfo :=
  match x with
  | NotObject => filtered
  | Null => filtered
  | Obj pairInfo =>
      match checkTradingPair isPathExistsSync pairInfo minLiquidity allowlist
      with
      | Ok true => filtered ++ [pairInfo]
      | Ok false => filtered
      | Throw _ => filtered
      end
  end.

Definition filterPairs (isPathExistsSync : string -> bool)
  (minLiquidity : Q) (allowlist : list string) (pairs : list raw)
  : list PairInfo :=
  fold_left (filterStep isPathExistsSync minLiquidity allowlist) pairs [].

(** [retrieveUniswapPairs], given the allowlist read from the repository and
    the pairs that [getTradingPairs] delivered.  The second [forEach] logs
    the symbols of the pairs kept. *)
Definition retrieveUniswapPairs (isPathExistsSync : string -> bool)
  (minLiquidity : Q) (allowlist : list string) (pairs : list raw)
  : result (list PairInfo) :=
  let filtered := filterPairs isPathExistsSync minLiquidity allowlist pairs in
  _ <- forEach logSymbols filtered ;;
  Ok filtered.

Definition tokenInfoFromSubgraphToken (token : TokenInfo) : result TokenItem :=
  idChecksum <- toChecksum (id token) ;;
  Ok (mkTokenItem
        (assetID coin idChecksum)
        standardTag
        idChecksum (name token) (symbol token) (parseInt (decimals token))
        (logoURI idChecksum chainName "--")
        []).

(** The two token items that the callback of [generateTokenlist] hands to
    [addPairIfNeeded], in the order in which it hands them. *)
Definition orientedPair (p : PairInfo) : result (TokenItem * TokenItem) :=
  t0 <- deref (token0 p) ;;
  tokenItem0 <- tokenInfoFromSubgraphToken t0 ;;
  t1 <- deref (token1 p) ;;
  tokenItem1 <- tokenInfoFromSubgraphToken t1 ;;
  i <- primaryTokenIndex p ;;
  if i =? 2 then Ok (tokenItem1, tokenItem0)
  else Ok (tokenItem0, tokenItem1).

(** The [forEach] of [generateTokenlist] over the trading pairs.  The list
    is updated in place, so the loop yields the tokens as they stand when it
    ends, along with the exception that ended it, if one did. *)
Fixpoint mergeLoop (tradingPairs : list PairInfo) (tokens : list TokenItem)
  : list TokenItem * option error :=
  match tradingPairs with
  | [] => (tokens, None)
  | p :: rest =>
      match orientedPair p with
      | Ok (tokenItem0, tokenItem1) =>
          mergeLoop rest (addPairIfNeeded tokenItem0 tokenItem1 tokens)
      | Throw e => (tokens, Some e)
      end
  end.

(** [generateTokenlist], given the base list read from the repository: the
    tokens handed to [generateTokensList] and written out, or the exception
    that leaves the function. *)
Definition generateTokenlist (isPathExistsSync : string -> bool)
  (minLiquidity : Q) (allowlist : list string) (pairs : list raw)
  (base : list TokenItem) : result (list TokenItem) :=
  tradingPairs <-
    retrieveUniswapPairs isPathExistsSync minLiquidity allowlist pairs ;;
  match mergeLoop tradingPairs base with
  | (tokens, None) => Ok tokens
  | (_, Some e) => Throw e
  end.

End Chain.

(** ** The two instances *)

Module Ethereum.

Definition Uniswap_MinLiquidity : Q := 1000000.
Definition PrimaryTokens : list string := ["WETH"; "ETH"].
Definition coin : Z := 60.
Definition standardTag : string := "ERC20".
Definition chainName : string := "ethereum".

End Ethereum.

Module SmartChain.

Definition PancakeSwap_MinLiquidity : Q := 1000000.
Definition PrimaryTokens : list string := ["WBNB"; "BNB"].
Definition coin : Z := 20000714.
Definition standardTag : string := "BEP20".
Definition chainName : string := "smartchain".

(** The two functions that [smartchain.ts] names otherwise. *)
Definition checkBSCTokenExists := checkEthTokenExists.
Definition retrievePancakeSwapPairs := retrieveUniswapPairs PrimaryTokens.

End SmartChain.

(** ** Vocabulary of the specification *)

(** Membership in a set of texts up to letter case. *)
Definition memberCI (s : string) (set : list string) : Prop :=
  exists t, In t set /\ toLowerCase t = toLowerCase s.

(** [r] is the answer of a classifier that says 1 when the first token is
    primary, else 2 when the second is, else 0. *)
Definition classifies (isPrimary : TokenInfo -> Prop) (t0 t1 : TokenInfo)
  (r : result Z) : Prop :=
  (isPrimary t0 -> r = Ok 1)
  /\ (~ isPrimary t0 -> isPrimary t1 -> r = Ok 2)
  /\ (~ isPrimary t0 -> ~ isPrimary t1 -> r = Ok 0).

(** A token is supported when its logo file exists and its address is in
    the allowlist up to letter case. *)
Definition supported (getChainAssetLogoPath : string -> string)
  (isPathExistsSync : string -> bool) (allowlist : list string)
  (t : TokenInfo) : Prop :=
  isPathExistsSync (getChainAssetLogoPath (id t)) = true
  /\ memberCI (id t) allowlist.

(** Everything is missing from the pair: its id is empty or absent, its
    reserve is zero or absent, and both of its tokens are absent. *)
Definition allMissing (p : PairInfo) : Prop :=
  (pair_id p = None \/ pair_id p = Some "")
  /\ (reserveUSD p = None \/ exists r, reserveUSD p = Some r /\ (r == 0)%Q)
  /\ token0 p = None
  /\ token1 p = None.

(** A rule of [checkTradingPair] after the first rejects the pair: its
    reserve is below the floor, or it has both tokens and one of them is
    not supported or none of them is primary. *)
Definition laterRuleRejects (PrimaryTokens : list string)
  (logoPath : string -> string) (fs : string -> bool) (p : PairInfo)
  (minLiquidity : Q) (allowlist : list string) : Prop :=
  (exists r, reserveUSD p = Some r /\ (r < minLiquidity)%Q)
  \/ exists t0 t1,
       token0 p = Some t0 /\ token1 p = Some t1
       /\ (checkEthTokenExists logoPath fs (id t0) allowlist = false
           \/ checkEthTokenExists logoPath fs (id t1) allowlist = false
           \/ (isTokenPrimary PrimaryTokens t0 = false
               /\ isTokenPrimary PrimaryTokens t1 = false)).

(** Exactly one of two tokens is primary. *)
Definition exactlyOnePrimary (PrimaryTokens : list string)
  (t0 t1 : TokenInfo) : Prop :=
  (isTokenPrimary PrimaryTokens t0 = true
   /\ isTokenPrimary PrimaryTokens t1 = false)
  \/ (isTokenPrimary PrimaryTokens t0 = false
      /\ isTokenPrimary PrimaryTokens t1 = true).

(** The addresses of a token list. *)
Definition addresses (tokens : list TokenItem) : list string :=
  map address tokens.

(** The tokens appended so far to [before]. *)
Definition extends (before after added : list TokenItem) : Prop :=
  after = before ++ added
  /\ (forall t, In t added -> ~ In (address t) (addresses before))
  /\ NoDup (addresses added).

(** [after] is [before] with tokens appended: the tokens appended have
    addresses that [before] lacks, no two of them share an address, the
    entries of [after] whose address is one of [before] are [before] itself,
    and [after] has no duplicate address when [before] has none. *)
Definition appendOnly (before after : list TokenItem) : Prop :=
  exists added,
    after = before ++ added
    /\ (forall t, In t added -> ~ In (address t) (addresses before))
    /\ NoDup (addresses added)
    /\ filter (fun t => hasAddress (address t) before) after = before
    /\ (NoDup (addresses before) -> NoDup (addresses after)).

(** The token item carries a primary symbol. *)
Definition primaryItem (PrimaryTokens : list string) (t : TokenItem) : Prop :=
  In (toUpperCase (item_symbol t)) PrimaryTokens.

(** ** A sample repository

    Concrete stand-ins for the imports of [generic/], and a few tokens and
    pairs, on which the definitions above evaluate. *)

Module Sample.

Fixpoint all_hex (s : string) : bool :=
  match s with
  | EmptyString => true
  | String c s' => is_defined (digit_value 16 c) && all_hex s'
  end.

Definition isAddress (s : string) : bool :=
  match s with
  | String "0" (String "x" s') => (String.length s' =? 40)%nat && all_hex s'
  | _ => false
  end.

(** Modelled from the spec: [toChecksum] is defined in [generic/eth-address],
    which is not part of the sources at hand.  A stand-in with what the
    specification says of it: it fails on a text that is no address, and it
    gives one form to an address whatever the case of its digits.  The case
    mix of the real form, which hashes the address, is not reproduced: the
    stand-in writes the digits in lower case. *)
Definition toChecksum (s : string) : result string :=
  if isAddress s then Ok (toLowerCase s) else Throw InvalidAddress.

(** Modelled from the spec: [assetID] and [logoURI] are defined in
    [generic/asset], which is not part of the sources at hand.  Stand-ins
    that derive the asset id from the coin and the address, and the logo URI
    from the address and the chain. *)
Definition assetID (coin : Z) (tokenId : string) : string :=
  ("c" ++ NilZero.string_of_int (Z.to_int coin) ++ "_t" ++ tokenId)%string.

Definition logoURI (tokenId chain sep : string) : string :=
  ("blockchains/" ++ chain ++ "/assets/" ++ tokenId ++ "/logo.png")%string.

(** Modelled from the spec: [getChainAssetLogoPath] is defined in
    [generic/repo-structure], which is not part of the sources at hand.  A
    stand-in: the path of the logo of an asset of the Ethereum chain. *)
Definition getChainAssetLogoPath (tokenId : string) : string :=
  ("blockchains/ethereum/assets/" ++ tokenId ++ "/logo.png")%string.

(** The file system in which exactly the logos of [ids] exist. *)
Definition logosOf (ids : list string) : string -> bool :=
  fun path => existsb (fun i => String.eqb path (getChainAssetLogoPath i)) ids.

Definition tokenInfoFromSubgraphToken :=
  tokenInfoFromSubgraphToken Ethereum.coin Ethereum.standardTag
    Ethereum.chainName toChecksum assetID logoURI.
Definition orientedPair :=
  orientedPair Ethereum.PrimaryTokens Ethereum.coin Ethereum.standardTag
    Ethereum.chainName toChecksum assetID logoURI.
Definition mergeLoop :=
  mergeLoop Ethereum.PrimaryTokens Ethereum.coin Ethereum.standardTag
    Ethereum.chainName toChecksum assetID logoURI.
Definition generateTokenlist :=
  generateTokenlist Ethereum.PrimaryTokens Ethereum.coin Ethereum.standardTag
    Ethereum.chainName getChainAssetLogoPath toChecksum assetID logoURI.

Definition weth : TokenInfo :=
  mkTokenInfo "0xC02aaA39b223FE8D0A0e5C4F27eAD9083C756Cc2" "WETH"
    "Wrapped Ether" "18".

Definition eth : TokenInfo :=
  mkTokenInfo "0xEeeeeEeeeEeEeeEeEeEeeEEEeeeeEeeeeeeeEEeE" "ETH" "Ether" "18".

Definition tokenx : TokenInfo :=
  mkTokenInfo "0x6b175474e89094c44da98b954eedeac495271d0f" "TokenX"
    "Token X" "18".

(** A token whose identifier is no address. *)
Definition tokeny : TokenInfo :=
  mkTokenInfo "0x6b1754" "TOKENY" "Token Y" "18".

(** A token whose decimals are no numeral. *)
Definition tokenz : TokenInfo :=
  mkTokenInfo "0x1f9840a85d5af5bf1d1762f925bdaddc4201f984" "TOKENZ"
    "Token Z" "eighteen".

Definition allowlist : list string :=
  [ "0xc02aaa39b223fe8d0a0e5c4f27ead9083c756cc2";
    "0xeeeeeeeeeeeeeeeeeeeeeeeeeeeeeeeeeeeeeeee";
    "0x6B175474E89094C44Da98b954EedeAC495271d0F";
    "0x6b1754";
    "0x1f9840a85d5af5bf1d1762f925bdaddc4201f984" ].

(** Every sample token has its logo. *)
Definition logos : string -> bool :=
  logosOf [id weth; id eth; id tokenx; id tokeny; id tokenz].

(** No logo at all. *)
Definition noLogos : string -> bool := logosOf [].

Definition pairOf (reserve : Q) (a b : TokenInfo) : PairInfo :=
  mkPairInfo (Some "0xa478c2975ab1ea89e8196811f51a7b7ade33eb11")
    (Some reserve) (Some a) (Some b).

Definition item (t : TokenInfo) : TokenItem :=
  mkTokenItem (assetID 60 (toLowerCase (id t))) "ERC20" (toLowerCase (id t))
    (name t) (symbol t) (parseInt (decimals t))
    (logoURI (toLowerCase (id t)) "ethereum" "--") [].

End Sample.

(** ** Vocabulary of the further properties *)

(** The pair with another id, and the pair with its two tokens exchanged. *)
Definition withId (i : option string) (p : PairInfo) : PairInfo :=
  mkPairInfo i (reserveUSD p) (token0 p) (token1 p).

Definition swapTokens (p : PairInfo) : PairInfo :=
  mkPairInfo (pair_id p) (reserveUSD p) (token1 p) (token0 p).

(** The answer is [true]. *)
Definition isOkTrue (r : result bool) : bool :=
  match r with
  | Ok true => true
  | _ => false
  end.

(** The element is an object that [checkTradingPair] accepts. *)
Definition keeps (PrimaryTokens : list string) (logoPath : string -> string)
  (fs : string -> bool) (minLiquidity : Q) (allowlist : list string)
  (x : raw) : bool :=
  match x with
  | Obj p =>
      isOkTrue
        (checkTradingPair PrimaryTokens logoPath fs p minLiquidity allowlist)
  | _ => false
  end.

(** [t] is one of the two tokens of [p]. *)
Definition tokenOf (p : PairInfo) (t : TokenInfo) : Prop :=
  token0 p = Some t \/ token1 p = Some t.

(** ** Letter case *)

Lemma lower_upper_ascii (c : ascii) :
  lower_ascii (upper_ascii c) = lower_ascii c.
Proof. destruct c as [[] [] [] [] [] [] [] []]; reflexivity. Qed.

Lemma upper_lower_ascii (c : ascii) :
  upper_ascii (lower_ascii c) = upper_ascii c.
Proof. destruct c as [[] [] [] [] [] [] [] []]; reflexivity. Qed.

Lemma toLowerCase_toUpperCase (s : string) :
  toLowerCase (toUpperCase s) = toLowerCase s.
Proof.
  induction s as [|c s IH]; simpl; [reflexivity|].
  now rewrite lower_upper_ascii, IH.
Qed.

Lemma toUpperCase_toLowerCase (s : string) :
  toUpperCase (toLowerCase s) = toUpperCase s.
Proof.
  induction s as [|c s IH]; simpl; [reflexivity|].
  now rewrite upper_lower_ascii, IH.
Qed.

Lemma upper_of_equal_lower (s t : string) :
  toLowerCase s = toLowerCase t -> toUpperCase s = toUpperCase t.
Proof.
  intros H.
  rewrite <- (toUpperCase_toLowerCase s), <- (toUpperCase_toLowerCase t).
  now rewrite H.
Qed.

(** In a set kept in upper case, the upper-cased text is a member exactly
    when the text is a member up to letter case. *)
Lemma memberCI_upper (set : list string) (s : string) :
  Forall (fun t => toUpperCase t = t) set ->
  In (toUpperCase s) set <-> memberCI s set.
Proof.
  intros Hup; split.
  - intros Hin. exists (toUpperCase s). split; [exact Hin|].
    apply toLowerCase_toUpperCase.
  - intros (t & Hin & Heq).
    rewrite Forall_forall in Hup.
    rewrite <- (upper_of_equal_lower _ _ Heq), (Hup t Hin). exact Hin.
Qed.

(** ** [find] *)

Lemma is_defined_find_iff {A : Type} (f : A -> bool) (xs : list A) :
  is_defined (find_first f xs) = true <-> exists x, In x xs /\ f x = true.
Proof.
  unfold find_first. induction xs as [|x xs IH]; simpl.
  - split; [discriminate|]. now intros (x & [] & _).
  - destruct (f x) eqn:Hfx; simpl.
    + split; [|reflexivity]. intros _. exists x. auto.
    + rewrite IH. split.
      * intros (y & Hin & Hy). exists y. auto.
      * intros (y & [Heq | Hin] & Hy); [congruence|]. exists y. auto.
Qed.

Lemma isTokenPrimary_iff (PrimaryTokens : list string) (t : TokenInfo) :
  isTokenPrimary PrimaryTokens t = true
  <-> In (toUpperCase (symbol t)) PrimaryTokens.
Proof.
  unfold isTokenPrimary. rewrite is_defined_find_iff. split.
  - intros (x & Hin & Heq). apply String.eqb_eq in Heq. now subst.
  - intros Hin. exists (toUpperCase (symbol t)). split; [exact Hin|].
    apply String.eqb_refl.
Qed.

Lemma checkEthTokenExists_iff (logoPath : string -> string)
  (fs : string -> bool) (allowlist : list string) (t : TokenInfo) :
  checkEthTokenExists logoPath fs (id t) allowlist = true
  <-> supported logoPath fs allowlist t.
Proof.
  unfold checkEthTokenExists, supported, memberCI.
  destruct (fs (logoPath (id t))); simpl.
  - destruct (is_defined _) eqn:Hfind; simpl.
    + apply is_defined_find_iff in Hfind. destruct Hfind as (a & Hin & Heq).
      apply String.eqb_eq in Heq. split; [|reflexivity].
      intros _. split; [reflexivity|]. exists a. auto.
    + split; [discriminate|]. intros (_ & a & Hin & Heq).
      assert (Hdef : is_defined
                (find_first
                   (fun t0 => String.eqb (toLowerCase (id t)) (toLowerCase t0))
                   allowlist) = true).
      { apply is_defined_find_iff. exists a. split; [exact Hin|].
        apply String.eqb_eq. now symmetry. }
      congruence.
  - split; [discriminate|]. now intros (Hfs & _).
Qed.

(** ** The pair filter *)

Section Filter.

Variable PrimaryTokens : list string.
Variable logoPath : string -> string.

Local Abbreviation check := (checkTradingPair PrimaryTokens logoPath).
Local Abbreviation tokenExists := (checkEthTokenExists logoPath).

Lemma primaryTokenIndex_present (p : PairInfo) (t0 t1 : TokenInfo) :
  token0 p = Some t0 -> token1 p = Some t1 ->
  primaryTokenIndex PrimaryTokens p =
  Ok (if isTokenPrimary PrimaryTokens t0 then 1
      else if isTokenPrimary PrimaryTokens t1 then 2 else 0).
Proof.
  intros H0 H1. unfold primaryTokenIndex. rewrite H0, H1. simpl.
  destruct (isTokenPrimary PrimaryTokens t0); [reflexivity|].
  now destruct (isTokenPrimary PrimaryTokens t1).
Qed.

(** What an accepted pair looks like, and conversely. *)
Lemma checkTradingPair_true_iff (fs : string -> bool) (p : PairInfo)
  (minLiquidity : Q) (allowlist : list string) :
  check fs p minLiquidity allowlist = Ok true
  <-> structurallyEmpty p = false
      /\ belowLiquidity p minLiquidity = false
      /\ exists t0 t1,
           token0 p = Some t0 /\ token1 p = Some t1
           /\ tokenExists fs (id t0) allowlist = true
           /\ tokenExists fs (id t1) allowlist = true
           /\ (isTokenPrimary PrimaryTokens t0 = true
               \/ isTokenPrimary PrimaryTokens t1 = true).
Proof.
  unfold checkTradingPair. split.
  - destruct (structurallyEmpty p); [discriminate|].
    destruct (belowLiquidity p minLiquidity); [discriminate|].
    destruct (token0 p) as [t0|] eqn:H0; simpl; [|discriminate].
    destruct (checkEthTokenExists logoPath fs (id t0) allowlist) eqn:E0; simpl.
    2:{ unfold logSymbols. rewrite H0. simpl.
        destruct (token1 p); simpl; discriminate. }
    destruct (token1 p) as [t1|] eqn:H1; simpl; [|discriminate].
    destruct (checkEthTokenExists logoPath fs (id t1) allowlist) eqn:E1; simpl.
    2:{ unfold logSymbols. rewrite H0, H1. simpl. discriminate. }
    rewrite (primaryTokenIndex_present p H0 H1). simpl.
    intros H. repeat split. exists t0, t1. repeat split; try assumption.
    destruct (isTokenPrimary PrimaryTokens t0); [now left|].
    destruct (isTokenPrimary PrimaryTokens t1); [now right|].
    simpl in H. unfold logSymbols in H. rewrite H0, H1 in H. discriminate.
  - intros (Hs & Hb & t0 & t1 & H0 & H1 & E0 & E1 & Hprim).
    rewrite Hs, Hb, H0. simpl. rewrite E0. simpl. rewrite H1. simpl.
    rewrite E1. simpl. rewrite (primaryTokenIndex_present p H0 H1). simpl.
    destruct (isTokenPrimary PrimaryTokens t0); [reflexivity|].
    destruct (isTokenPrimary PrimaryTokens t1); [reflexivity|].
    destruct Hprim; discriminate.
Qed.

(** Past the first two tests, a pair that lacks a token makes the filter
    throw. *)
Lemma checkTradingPair_missing_token (fs : string -> bool) (p : PairInfo)
  (minLiquidity : Q) (allowlist : list string) :
  structurallyEmpty p = false ->
  belowLiquidity p minLiquidity = false ->
  token0 p = None \/ token1 p = None ->
  check fs p minLiquidity allowlist = Throw TypeError.
Proof.
  intros Hs Hb Hmiss. unfold checkTradingPair.
  rewrite Hs, Hb.
  destruct (token0 p) as [t0|] eqn:H0; simpl; [|reflexivity].
  destruct Hmiss as [Hmiss | Hmiss]; [discriminate|].
  unfold logSymbols. rewrite H0, Hmiss. simpl.
  now destruct (negb _).
Qed.

End Filter.

(** ** Comparisons of rationals *)

Lemma Qltb_true_iff (x y : Q) : Qltb x y = true <-> (x < y)%Q.
Proof.
  unfold Qltb. rewrite negb_true_iff, <- not_true_iff_false, Qle_bool_iff.
  split; [apply Qnot_le_lt | apply Qlt_not_le].
Qed.

Lemma Qltb_false_iff (x y : Q) : Qltb x y = false <-> (y <= x)%Q.
Proof.
  unfold Qltb. rewrite negb_false_iff. apply Qle_bool_iff.
Qed.

(** ** The first loop of [retrieveUniswapPairs] *)

Section Retrieve.

Variable PrimaryTokens : list string.
Variable logoPath : string -> string.
Variable fs : string -> bool.
Variable minLiquidity : Q.
Variable allowlist : list string.

Local Abbreviation check p :=
  (checkTradingPair PrimaryTokens logoPath fs p minLiquidity allowlist).
Local Abbreviation step :=
  (filterStep PrimaryTokens logoPath fs minLiquidity allowlist).
Local Abbreviation filtered :=
  (filterPairs PrimaryTokens logoPath fs minLiquidity allowlist).

Lemma filterStep_app (acc : list PairInfo) (x : raw) :
  step acc x = acc ++ step [] x.
Proof.
  unfold filterStep.
  destruct x as [| |p]; try (now rewrite app_nil_r).
  destruct (checkTradingPair _ _ _ _ _ _) as [[|]|e];
    simpl; now rewrite ?app_nil_r.
Qed.

Lemma fold_filterStep (xs : list raw) (acc : list PairInfo) :
  fold_left step xs acc = acc ++ filtered xs.
Proof.
  unfold filterPairs.
  revert acc. induction xs as [|x xs IH]; intros acc; simpl.
  - now rewrite app_nil_r.
  - rewrite (IH (step acc x)), (IH (step [] x)), (filterStep_app acc x).
    now rewrite app_assoc.
Qed.

Lemma filterPairs_cons (x : raw) (xs : list raw) :
  filtered (x :: xs) = step [] x ++ filtered xs.
Proof.
  unfold filterPairs at 1. simpl.
  apply fold_filterStep.
Qed.

Lemma filterPairs_app (xs ys : list raw) :
  filtered (xs ++ ys) = filtered xs ++ filtered ys.
Proof.
  induction xs as [|x xs IH]; simpl; [reflexivity|].
  now rewrite !filterPairs_cons, IH, app_assoc.
Qed.

Lemma filterStep_throw (p : PairInfo) (e : error) :
  check p = Throw e -> step [] (Obj p) = [].
Proof.
  unfold filterStep. intros H. now rewrite H.
Qed.

Lemma In_filterPairs (p : PairInfo) (xs : list raw) :
  In p (filtered xs) <-> In (Obj p) xs /\ check p = Ok true.
Proof.
  induction xs as [|x xs IH].
  - simpl. tauto.
  - rewrite filterPairs_cons, in_app_iff, IH. simpl.
    assert (Hstep : In p (step [] x) <-> x = Obj p /\ check p = Ok true).
    { unfold filterStep.
      destruct x as [| |q]; simpl; try (split; [tauto | now intros [? _]]).
      destruct (checkTradingPair _ _ _ q _ _) as [[|]|e] eqn:Hq; simpl.
      - split.
        + intros [-> | []]. auto.
        + intros [Heq _]. left. congruence.
      - split; [tauto|]. intros [Heq H]. injection Heq as ->. congruence.
      - split; [tauto|]. intros [Heq H]. injection Heq as ->. congruence. }
    rewrite Hstep. tauto.
Qed.

(** The second loop of [retrieveUniswapPairs] cannot fail: the pairs kept
    have both tokens. *)
Lemma forEach_logSymbols_filtered (xs : list raw) :
  forEach logSymbols (filtered xs) = Ok tt.
Proof.
  assert (H : forall ps, (forall p, In p ps -> check p = Ok true) ->
                         forEach logSymbols ps = Ok tt).
  { induction ps as [|p ps IH]; intros Hall; simpl; [reflexivity|].
    assert (Hp : check p = Ok true) by (apply Hall; now left).
    apply checkTradingPair_true_iff in Hp.
    destruct Hp as (_ & _ & t0 & t1 & H0 & H1 & _).
    unfold logSymbols at 1. rewrite H0, H1. simpl.
    apply IH. intros q Hq. apply Hall. now right. }
  apply H. intros p Hp. now apply In_filterPairs in Hp.
Qed.

Lemma retrieveUniswapPairs_total (xs : list raw) :
  retrieveUniswapPairs PrimaryTokens logoPath fs minLiquidity allowlist xs
  = Ok (filtered xs).
Proof.
  unfold retrieveUniswapPairs.
  now rewrite forEach_logSymbols_filtered.
Qed.

End Retrieve.

(** ** The anchor-token classifier *)

(** C8: for every set of primary symbols and every pair with both tokens,
    [primaryTokenIndex] answers 1 when the upper-cased symbol of the first
    token is in the set, else 2 when that of the second is, else 0; when
    both are primary the answer is 1 and nothing is thrown.  For a set kept
    in upper case, as both modules keep theirs, that is membership of the
    symbol up to letter case. *)
Theorem primaryTokenIndex_classifies (PrimaryTokens : list string)
  (p : PairInfo) (t0 t1 : TokenInfo) :
  token0 p = Some t0 -> token1 p = Some t1 ->
  classifies (fun t => In (toUpperCase (symbol t)) PrimaryTokens) t0 t1
    (primaryTokenIndex PrimaryTokens p)
  /\ (In (toUpperCase (symbol t0)) PrimaryTokens ->
      In (toUpperCase (symbol t1)) PrimaryTokens ->
      primaryTokenIndex PrimaryTokens p = Ok 1)
  /\ (Forall (fun s => toUpperCase s = s) PrimaryTokens ->
      classifies (fun t => memberCI (symbol t) PrimaryTokens) t0 t1
        (primaryTokenIndex PrimaryTokens p)).
Proof.
  intros H0 H1.
  assert (Hexact :
    classifies (fun t => In (toUpperCase (symbol t)) PrimaryTokens) t0 t1
      (primaryTokenIndex PrimaryTokens p)).
  { rewrite (primaryTokenIndex_present PrimaryTokens p H0 H1).
    unfold classifies. rewrite <- !isTokenPrimary_iff.
    destruct (isTokenPrimary PrimaryTokens t0),
             (isTokenPrimary PrimaryTokens t1);
      repeat split; intros; congruence. }
  split; [exact Hexact|]. split.
  - intros Hin0 _. now apply Hexact.
  - intros Hup. unfold classifies in *.
    rewrite <- !(memberCI_upper _ Hup). exact Hexact.
Qed.

Lemma primaryTokenIndex_classifies_witness :
  classifies (fun t => memberCI (symbol t) Ethereum.PrimaryTokens)
    (mkTokenInfo "0xc02aaa39b223fe8d0a0e5c4f27ead9083c756cc2" "weth" "" "18")
    Sample.tokenx
    (primaryTokenIndex Ethereum.PrimaryTokens
       (mkPairInfo (Some "0x1") (Some 1%Q)
          (Some (mkTokenInfo "0xc02aaa39b223fe8d0a0e5c4f27ead9083c756cc2"
                   "weth" "" "18"))
          (Some Sample.tokenx))).
Proof.
  refine (proj2 (proj2 (primaryTokenIndex_classifies Ethereum.PrimaryTokens
                          (mkPairInfo _ _ _ _) eq_refl eq_refl)) _).
  repeat constructor.
Defined.

(** ** The rules of [checkTradingPair] *)

Lemma structurallyEmpty_iff (p : PairInfo) :
  structurallyEmpty p = true <-> allMissing p.
Proof.
  unfold structurallyEmpty, allMissing, not_id, not_number, not_object.
  rewrite !andb_true_iff. destruct p as [i r a b]; simpl. split.
  - intros [[[Hi Hr] Ha] Hb]. repeat split.
    + destruct i as [s|]; [right | now left].
      apply String.eqb_eq in Hi. now subst.
    + destruct r as [q|]; [right | now left].
      exists q. split; [reflexivity|]. now apply Qeq_bool_iff.
    + now destruct a.
    + now destruct b.
  - intros (Hi & Hr & -> & ->). repeat split.
    + destruct Hi as [-> | ->]; reflexivity.
    + destruct Hr as [-> | (q & -> & Hq)]; [reflexivity|].
      now apply Qeq_bool_iff.
Qed.

(** Past the first rule, with both tokens: the answer of the rules that
    follow. *)
Lemma checkTradingPair_both_tokens (PrimaryTokens : list string)
  (logoPath : string -> string) (fs : string -> bool) (p : PairInfo)
  (minLiquidity : Q) (allowlist : list string) (t0 t1 : TokenInfo) :
  token0 p = Some t0 -> token1 p = Some t1 ->
  checkTradingPair PrimaryTokens logoPath fs p minLiquidity allowlist =
  Ok (negb (belowLiquidity p minLiquidity)
      && checkEthTokenExists logoPath fs (id t0) allowlist
      && checkEthTokenExists logoPath fs (id t1) allowlist
      && (isTokenPrimary PrimaryTokens t0 || isTokenPrimary PrimaryTokens t1)).
Proof.
  intros H0 H1. unfold checkTradingPair.
  assert (Hs : structurallyEmpty p = false).
  { unfold structurallyEmpty, not_object. rewrite H0. simpl.
    now rewrite andb_false_r. }
  rewrite Hs.
  destruct (belowLiquidity p minLiquidity); [reflexivity|].
  rewrite H0. simpl. unfold logSymbols. rewrite H0, H1. simpl.
  destruct (checkEthTokenExists logoPath fs (id t0) allowlist);
    [|reflexivity].
  destruct (checkEthTokenExists logoPath fs (id t1) allowlist);
    [|reflexivity].
  simpl. rewrite (primaryTokenIndex_present PrimaryTokens p H0 H1). simpl.
  destruct (isTokenPrimary PrimaryTokens t0); [reflexivity|].
  now destruct (isTokenPrimary PrimaryTokens t1).
Qed.

(** A pair that is rejected whatever the primary symbols, the logos, the
    floor and the allowlist has everything missing. *)
Lemma rejected_everywhere_all_missing (p : PairInfo) :
  (forall PrimaryTokens logoPath fs minLiquidity allowlist,
     checkTradingPair PrimaryTokens logoPath fs p minLiquidity allowlist
     = Ok false) ->
  allMissing p.
Proof.
  intros Hall. apply structurallyEmpty_iff.
  destruct (structurallyEmpty p) eqn:Hs; [reflexivity|]. exfalso.
  set (m := match reserveUSD p with Some r => r | None => 0%Q end).
  assert (Hb : belowLiquidity p m = false).
  { unfold belowLiquidity, m. destruct (reserveUSD p) as [r|]; [|reflexivity].
    apply Qltb_false_iff. apply Qle_refl. }
  destruct (token0 p) as [t0|] eqn:H0.
  - destruct (token1 p) as [t1|] eqn:H1.
    + specialize (Hall [toUpperCase (symbol t0)] (fun x => x)
                       (fun _ => true) m [id t0; id t1]).
      rewrite (checkTradingPair_both_tokens _ _ _ p _ _ H0 H1), Hb in Hall.
      assert (E0 : checkEthTokenExists (fun x => x) (fun _ => true) (id t0)
                     [id t0; id t1] = true).
      { apply checkEthTokenExists_iff. split; [reflexivity|].
        exists (id t0). split; [now left | reflexivity]. }
      assert (E1 : checkEthTokenExists (fun x => x) (fun _ => true) (id t1)
                     [id t0; id t1] = true).
      { apply checkEthTokenExists_iff. split; [reflexivity|].
        exists (id t1). split; [right; now left | reflexivity]. }
      assert (P0 : isTokenPrimary [toUpperCase (symbol t0)] t0 = true).
      { apply isTokenPrimary_iff. now left. }
      rewrite E0, E1, P0 in Hall. discriminate.
    + specialize (Hall [] (fun x => x) (fun _ => true) m []).
      rewrite (checkTradingPair_missing_token [] (fun x => x) (fun _ => true)
                 p m [] Hs Hb (or_intror H1)) in Hall.
      discriminate.
  - specialize (Hall [] (fun x => x) (fun _ => true) m []).
    rewrite (checkTradingPair_missing_token [] (fun x => x) (fun _ => true)
               p m [] Hs Hb (or_introl H0)) in Hall.
    discriminate.
Qed.

(** A pair that has something is rejected by a later rule or not at all. *)
Lemma rejected_by_later_rule (PrimaryTokens : list string)
  (logoPath : string -> string) (fs : string -> bool) (p : PairInfo)
  (minLiquidity : Q) (allowlist : list string) :
  ~ allMissing p ->
  checkTradingPair PrimaryTokens logoPath fs p minLiquidity allowlist
  = Ok false
  <-> laterRuleRejects PrimaryTokens logoPath fs p minLiquidity allowlist.
Proof.
  intros Hnot.
  assert (Hs : structurallyEmpty p = false).
  { destruct (structurallyEmpty p) eqn:E; [|reflexivity].
    apply structurallyEmpty_iff in E. contradiction. }
  unfold laterRuleRejects.
  destruct (belowLiquidity p minLiquidity) eqn:Hb.
  - split.
    + intros _. left. unfold belowLiquidity in Hb.
      destruct (reserveUSD p) as [r|]; [|discriminate].
      exists r. split; [reflexivity|]. now apply Qltb_true_iff.
    + intros _. unfold checkTradingPair. now rewrite Hs, Hb.
  - assert (Hfloor : ~ exists r, reserveUSD p = Some r
                                 /\ (r < minLiquidity)%Q).
    { intros (r & Hr & Hlt). unfold belowLiquidity in Hb. rewrite Hr in Hb.
      apply Qltb_true_iff in Hlt. congruence. }
    destruct (token0 p) as [t0|] eqn:H0.
    + destruct (token1 p) as [t1|] eqn:H1.
      * rewrite (checkTradingPair_both_tokens _ _ _ p _ _ H0 H1), Hb.
        simpl. split.
        -- intros H. right. exists t0, t1.
           split; [reflexivity|]. split; [reflexivity|].
           destruct (checkEthTokenExists logoPath fs (id t0) allowlist);
             [|now left].
           destruct (checkEthTokenExists logoPath fs (id t1) allowlist);
             [|right; now left].
           destruct (isTokenPrimary PrimaryTokens t0); [discriminate|].
           destruct (isTokenPrimary PrimaryTokens t1); [discriminate|].
           right. right. now split.
        -- intros [Hf | (u0 & u1 & [= <-] & [= <-] & Hwhy)];
             [contradiction|].
           destruct Hwhy as [-> | [-> | (-> & ->)]];
             rewrite ?andb_false_r; reflexivity.
      * rewrite (checkTradingPair_missing_token PrimaryTokens logoPath fs p
                   minLiquidity allowlist Hs Hb (or_intror H1)).
        split; [discriminate|].
        intros [Hf | (u0 & u1 & _ & Hu & _)]; [contradiction | discriminate].
    + rewrite (checkTradingPair_missing_token PrimaryTokens logoPath fs p
                 minLiquidity allowlist Hs Hb (or_introl H0)).
      split; [discriminate|].
      intros [Hf | (u0 & u1 & Hu & _)]; [contradiction | discriminate].
Qed.

(** C3: the first rule of [checkTradingPair] rejects a pair exactly when its
    id is empty (or absent), its reserve is zero or absent, and both of its
    tokens are absent.  Such a pair is answered [false] whatever the primary
    symbols, the logos, the floor and the allowlist, and no other pair is;
    a pair that has any of the four is rejected only by a later rule: by
    the floor, the support of a token or the lack of a primary token. *)
Theorem structural_rule_all_missing (p : PairInfo) :
  (structurallyEmpty p = true <-> allMissing p)
  /\ (forall PrimaryTokens logoPath fs minLiquidity allowlist,
        structurallyEmpty p = true ->
        checkTradingPair PrimaryTokens logoPath fs p minLiquidity allowlist
        = Ok false)
  /\ ((forall PrimaryTokens logoPath fs minLiquidity allowlist,
         checkTradingPair PrimaryTokens logoPath fs p minLiquidity allowlist
         = Ok false)
      <-> allMissing p)
  /\ (~ allMissing p ->
      forall PrimaryTokens logoPath fs minLiquidity allowlist,
        checkTradingPair PrimaryTokens logoPath fs p minLiquidity allowlist
        = Ok false
        <-> laterRuleRejects PrimaryTokens logoPath fs p minLiquidity
              allowlist).
Proof.
  assert (Hrej : forall PrimaryTokens logoPath fs minLiquidity allowlist,
            structurallyEmpty p = true ->
            checkTradingPair PrimaryTokens logoPath fs p minLiquidity
              allowlist = Ok false).
  { intros PT logoPath fs m allow H. unfold checkTradingPair.
    now rewrite H. }
  split; [apply structurallyEmpty_iff|].
  split; [exact Hrej|]. split.
  - split.
    + apply rejected_everywhere_all_missing.
    + intros Hall PT logoPath fs m allow. apply Hrej.
      now apply structurallyEmpty_iff.
  - intros Hnot PT logoPath fs m allow. now apply rejected_by_later_rule.
Qed.

Lemma structural_rule_all_missing_witness :
  laterRuleRejects Ethereum.PrimaryTokens Sample.getChainAssetLogoPath
    Sample.logos
    (mkPairInfo (Some "") (Some 0%Q) (Some Sample.tokenx) (Some Sample.tokenz))
    0 Sample.allowlist.
Proof.
  apply (proj2 (proj2 (proj2 (structural_rule_all_missing
           (mkPairInfo (Some "") (Some 0%Q) (Some Sample.tokenx)
              (Some Sample.tokenz)))))).
  - intros (_ & _ & H & _). discriminate H.
  - reflexivity.
Defined.

(** C7: a pair whose reserve is below the floor is rejected, whatever the
    allowlist (and the logos); an accepted pair that has a reserve has it at
    or above the floor; in particular a reserve of 500000 under a floor of
    1000000 is rejected for every allowlist. *)
Theorem liquidity_floor (PrimaryTokens : list string)
  (logoPath : string -> string) (p : PairInfo) :
  (forall fs minLiquidity allowlist r,
     reserveUSD p = Some r -> (r < minLiquidity)%Q ->
     checkTradingPair PrimaryTokens logoPath fs p minLiquidity allowlist
     = Ok false)
  /\ (forall fs minLiquidity allowlist r,
        checkTradingPair PrimaryTokens logoPath fs p minLiquidity allowlist
        = Ok true ->
        reserveUSD p = Some r -> (minLiquidity <= r)%Q)
  /\ (forall fs allowlist,
        reserveUSD p = Some 500000%Q ->
        checkTradingPair PrimaryTokens logoPath fs p 1000000%Q allowlist
        = Ok false).
Proof.
  assert (Hbelow : forall fs minLiquidity allowlist r,
     reserveUSD p = Some r -> (r < minLiquidity)%Q ->
     checkTradingPair PrimaryTokens logoPath fs p minLiquidity allowlist
     = Ok false).
  { intros fs m allow r Hr Hlt. unfold checkTradingPair.
    destruct (structurallyEmpty p); [reflexivity|].
    unfold belowLiquidity. rewrite Hr.
    apply Qltb_true_iff in Hlt. now rewrite Hlt. }
  split; [exact Hbelow|]. split.
  - intros fs m allow r Hok Hr.
    apply checkTradingPair_true_iff in Hok. destruct Hok as (_ & Hb & _).
    unfold belowLiquidity in Hb. rewrite Hr in Hb.
    now apply Qltb_false_iff.
  - intros fs allow Hr. apply (Hbelow fs _ allow _ Hr). reflexivity.
Qed.

Lemma liquidity_floor_witness :
  (999999.5 < Ethereum.Uniswap_MinLiquidity)%Q
  /\ checkTradingPair Ethereum.PrimaryTokens Sample.getChainAssetLogoPath
       Sample.logos (Sample.pairOf 999999.5 Sample.weth Sample.tokenx)
       Ethereum.Uniswap_MinLiquidity Sample.allowlist
     = Ok false.
Proof.
  split; [reflexivity|].
  apply (proj1 (liquidity_floor Ethereum.PrimaryTokens
                  Sample.getChainAssetLogoPath
                  (Sample.pairOf 999999.5 Sample.weth Sample.tokenx))
           Sample.logos Ethereum.Uniswap_MinLiquidity Sample.allowlist
           999999.5%Q eq_refl).
  reflexivity.
Defined.

(** C10: a pair with an id and a reserve at or above the floor, but without
    its first or its second token, is not rejected: the first rule lets it
    through, the checks that follow read a field of the missing token and
    [checkTradingPair] throws.  The handler of [retrieveUniswapPairs]
    contains the exception: the pair is dropped and the pairs around it are
    filtered as if it were not there. *)
Theorem missing_token_throws (PrimaryTokens : list string)
  (logoPath : string -> string) (fs : string -> bool) (minLiquidity : Q)
  (allowlist : list string) (p : PairInfo) (i : string) (r : Q) :
  pair_id p = Some i -> i <> "" ->
  reserveUSD p = Some r -> (minLiquidity <= r)%Q ->
  token0 p = None \/ token1 p = None ->
  structurallyEmpty p = false
  /\ checkTradingPair PrimaryTokens logoPath fs p minLiquidity allowlist
     = Throw TypeError
  /\ forall before after,
       retrieveUniswapPairs PrimaryTokens logoPath fs minLiquidity allowlist
         (before ++ Obj p :: after)
       = Ok (filterPairs PrimaryTokens logoPath fs minLiquidity allowlist
               before
             ++ filterPairs PrimaryTokens logoPath fs minLiquidity allowlist
                  after).
Proof.
  intros Hi Hne Hr Hle Hmiss.
  assert (Hs : structurallyEmpty p = false).
  { unfold structurallyEmpty. rewrite Hi. simpl.
    destruct (String.eqb i "") eqn:E; [|reflexivity].
    apply String.eqb_eq in E. contradiction. }
  assert (Hb : belowLiquidity p minLiquidity = false).
  { unfold belowLiquidity. rewrite Hr. now apply Qltb_false_iff. }
  assert (Hthrow :
    checkTradingPair PrimaryTokens logoPath fs p minLiquidity allowlist
    = Throw TypeError)
    by (now apply checkTradingPair_missing_token).
  repeat split; [exact Hs | exact Hthrow |].
  intros before after.
  rewrite retrieveUniswapPairs_total, filterPairs_app, filterPairs_cons.
  now rewrite (filterStep_throw _ _ _ _ _ _ Hthrow).
Qed.

Lemma missing_token_throws_witness :
  checkTradingPair Ethereum.PrimaryTokens Sample.getChainAssetLogoPath
    Sample.logos
    (mkPairInfo (Some "0xa478") (Some 2000000%Q) None (Some Sample.weth))
    Ethereum.Uniswap_MinLiquidity Sample.allowlist
  = Throw TypeError
  /\ checkTradingPair Ethereum.PrimaryTokens Sample.getChainAssetLogoPath
       Sample.noLogos
       (mkPairInfo (Some "0xa478") (Some 2000000%Q) (Some Sample.weth) None)
       Ethereum.Uniswap_MinLiquidity Sample.allowlist
     = Throw TypeError.
Proof.
  split.
  - refine (proj1 (proj2 (@missing_token_throws Ethereum.PrimaryTokens
              Sample.getChainAssetLogoPath Sample.logos
              Ethereum.Uniswap_MinLiquidity Sample.allowlist
              (mkPairInfo (Some "0xa478") (Some 2000000%Q) None
                 (Some Sample.weth))
              "0xa478" 2000000%Q
              eq_refl _ eq_refl _ (or_introl eq_refl)))).
    + discriminate.
    + vm_compute. discriminate.
  - refine (proj1 (proj2 (@missing_token_throws Ethereum.PrimaryTokens
              Sample.getChainAssetLogoPath Sample.noLogos
              Ethereum.Uniswap_MinLiquidity Sample.allowlist
              (mkPairInfo (Some "0xa478") (Some 2000000%Q)
                 (Some Sample.weth) None)
              "0xa478" 2000000%Q
              eq_refl _ eq_refl _ (or_intror eq_refl)))).
    + discriminate.
    + vm_compute. discriminate.
Defined.

(** C2 as the code has it: [checkTradingPair] accepts a pair only if both
    tokens are there, at least one of them is primary (both may be, and
    [primaryTokenIndex] then names the first), and each of them, so the one
    that is not primary too, is in the allowlist up to letter case and has
    its logo. *)
Theorem accepted_pair (PrimaryTokens : list string)
  (logoPath : string -> string) (fs : string -> bool) (p : PairInfo)
  (minLiquidity : Q) (allowlist : list string) :
  checkTradingPair PrimaryTokens logoPath fs p minLiquidity allowlist
  = Ok true ->
  exists t0 t1,
    token0 p = Some t0 /\ token1 p = Some t1
    /\ (isTokenPrimary PrimaryTokens t0 = true
        \/ isTokenPrimary PrimaryTokens t1 = true)
    /\ (primaryTokenIndex PrimaryTokens p = Ok 1
        \/ primaryTokenIndex PrimaryTokens p = Ok 2)
    /\ supported logoPath fs allowlist t0
    /\ supported logoPath fs allowlist t1.
Proof.
  intros H. apply checkTradingPair_true_iff in H.
  destruct H as (_ & _ & t0 & t1 & H0 & H1 & E0 & E1 & Hprim).
  exists t0, t1.
  split; [exact H0|]. split; [exact H1|]. split; [exact Hprim|].
  split.
  - rewrite (primaryTokenIndex_present PrimaryTokens p H0 H1).
    destruct (isTokenPrimary PrimaryTokens t0); [now left|].
    destruct (isTokenPrimary PrimaryTokens t1); [now right|].
    destruct Hprim; discriminate.
  - split; now apply checkEthTokenExists_iff.
Qed.

Lemma accepted_pair_witness :
  exists t0 t1,
    Some Sample.weth = Some t0 /\ Some Sample.tokenx = Some t1
    /\ (isTokenPrimary Ethereum.PrimaryTokens t0 = true
        \/ isTokenPrimary Ethereum.PrimaryTokens t1 = true)
    /\ (primaryTokenIndex Ethereum.PrimaryTokens
          (Sample.pairOf 2000000 Sample.weth Sample.tokenx) = Ok 1
        \/ primaryTokenIndex Ethereum.PrimaryTokens
             (Sample.pairOf 2000000 Sample.weth Sample.tokenx) = Ok 2)
    /\ supported Sample.getChainAssetLogoPath Sample.logos Sample.allowlist t0
    /\ supported Sample.getChainAssetLogoPath Sample.logos Sample.allowlist t1.
Proof.
  apply (@accepted_pair Ethereum.PrimaryTokens Sample.getChainAssetLogoPath
           Sample.logos (Sample.pairOf 2000000 Sample.weth Sample.tokenx)
           Ethereum.Uniswap_MinLiquidity Sample.allowlist).
  reflexivity.
Defined.

(** C2 as stated fails: the pair of WETH and ETH, both in the allowlist and
    both with a logo, is accepted although both of its tokens are primary. *)
Lemma accepted_pair_both_primary :
  checkTradingPair Ethereum.PrimaryTokens Sample.getChainAssetLogoPath
    Sample.logos (Sample.pairOf 2000000 Sample.weth Sample.eth)
    Ethereum.Uniswap_MinLiquidity Sample.allowlist
  = Ok true
  /\ ~ exactlyOnePrimary Ethereum.PrimaryTokens Sample.weth Sample.eth.
Proof.
  split; [reflexivity|].
  intros [[_ H] | [H _]]; vm_compute in H; discriminate.
Qed.

(** C9 as the code has it: the answer of [checkTradingPair] is a function of
    the pair, the floor, the allowlist and of whether the logo files of the
    pair's two tokens exist; two file systems that agree on these two files
    give the same answer. *)
Theorem checkTradingPair_depends_on_logos (PrimaryTokens : list string)
  (logoPath : string -> string) (fs1 fs2 : string -> bool) (p : PairInfo)
  (minLiquidity : Q) (allowlist : list string) :
  (forall t, token0 p = Some t \/ token1 p = Some t ->
             fs1 (logoPath (id t)) = fs2 (logoPath (id t))) ->
  checkTradingPair PrimaryTokens logoPath fs1 p minLiquidity allowlist
  = checkTradingPair PrimaryTokens logoPath fs2 p minLiquidity allowlist.
Proof.
  intros Hagree. unfold checkTradingPair.
  destruct (structurallyEmpty p); [reflexivity|].
  destruct (belowLiquidity p minLiquidity); [reflexivity|].
  destruct (token0 p) as [t0|] eqn:H0; simpl; [|reflexivity].
  unfold checkEthTokenExists.
  rewrite (Hagree t0 (or_introl eq_refl)).
  destruct (negb (if negb (fs2 (logoPath (id t0))) then _ else _));
    [reflexivity|].
  destruct (token1 p) as [t1|] eqn:H1; simpl; [|reflexivity].
  now rewrite (Hagree t1 (or_intror eq_refl)).
Qed.

Lemma checkTradingPair_depends_on_logos_witness :
  checkTradingPair Ethereum.PrimaryTokens Sample.getChainAssetLogoPath
    Sample.logos (Sample.pairOf 2000000 Sample.weth Sample.tokenx)
    Ethereum.Uniswap_MinLiquidity Sample.allowlist
  = checkTradingPair Ethereum.PrimaryTokens Sample.getChainAssetLogoPath
      (Sample.logosOf [id Sample.weth; id Sample.tokenx])
      (Sample.pairOf 2000000 Sample.weth Sample.tokenx)
      Ethereum.Uniswap_MinLiquidity Sample.allowlist.
Proof.
  apply (@checkTradingPair_depends_on_logos Ethereum.PrimaryTokens
           Sample.getChainAssetLogoPath Sample.logos
           (Sample.logosOf [id Sample.weth; id Sample.tokenx])
           (Sample.pairOf 2000000 Sample.weth Sample.tokenx)).
  intros t [H | H]; injection H as <-; reflexivity.
Defined.

(** C9 as stated fails: the same pair, floor and allowlist are accepted
    where the logo files exist and rejected where they do not. *)
Lemma checkTradingPair_reads_file_system :
  checkTradingPair Ethereum.PrimaryTokens Sample.getChainAssetLogoPath
    Sample.logos (Sample.pairOf 2000000 Sample.weth Sample.tokenx)
    Ethereum.Uniswap_MinLiquidity Sample.allowlist
  = Ok true
  /\ checkTradingPair Ethereum.PrimaryTokens Sample.getChainAssetLogoPath
       Sample.noLogos (Sample.pairOf 2000000 Sample.weth Sample.tokenx)
       Ethereum.Uniswap_MinLiquidity Sample.allowlist
     = Ok false.
Proof. split; reflexivity. Qed.

(** ** The merge *)

Lemma hasAddress_true_iff (a : string) (tokens : list TokenItem) :
  hasAddress a tokens = true <-> In a (addresses tokens).
Proof.
  unfold hasAddress, addresses. rewrite existsb_exists, in_map_iff.
  split; intros (t & H1 & H2).
  - apply String.eqb_eq in H2. exists t. auto.
  - exists t. split; [exact H2|]. now apply String.eqb_eq.
Qed.

Lemma hasAddress_false_iff (a : string) (tokens : list TokenItem) :
  hasAddress a tokens = false <-> ~ In a (addresses tokens).
Proof.
  rewrite <- hasAddress_true_iff. now destruct (hasAddress a tokens).
Qed.

Lemma addresses_app (xs ys : list TokenItem) :
  addresses (xs ++ ys) = addresses xs ++ addresses ys.
Proof. apply map_app. Qed.

Lemma extends_refl (before : list TokenItem) : extends before before [].
Proof.
  unfold extends. rewrite app_nil_r. repeat split.
  - intros t [].
  - constructor.
Qed.

Lemma extends_addTokenIfNeeded (before after added : list TokenItem)
  (t : TokenItem) :
  extends before after added ->
  exists added', extends before (addTokenIfNeeded t after) added'.
Proof.
  intros (Heq & Hnew & Hnd). unfold addTokenIfNeeded.
  destruct (hasAddress (address t) after) eqn:Hhas.
  - exists added. repeat split; assumption.
  - apply hasAddress_false_iff in Hhas.
    rewrite Heq, addresses_app, in_app_iff in Hhas.
    exists (added ++ [t]). repeat split.
    + now rewrite Heq, app_assoc.
    + intros u Hu. apply in_app_iff in Hu.
      destruct Hu as [Hu | [<- | []]]; [now apply Hnew | tauto].
    + rewrite addresses_app. apply NoDup_app; [exact Hnd | | ].
      * simpl. constructor; [intros [] | constructor].
      * intros a Ha [<- | []]. tauto.
Qed.

Lemma extends_addPairIfNeeded (before after added : list TokenItem)
  (a b : TokenItem) :
  extends before after added ->
  exists added', extends before (addPairIfNeeded a b after) added'.
Proof.
  intros H. unfold addPairIfNeeded.
  destruct (extends_addTokenIfNeeded a H) as (added1 & H1).
  exact (extends_addTokenIfNeeded b H1).
Qed.

Lemma filter_hasAddress_self (before : list TokenItem) :
  filter (fun t => hasAddress (address t) before) before = before.
Proof.
  apply forallb_filter_id, forallb_forall. intros t Ht.
  apply hasAddress_true_iff. unfold addresses. now apply in_map.
Qed.

Lemma filter_hasAddress_none (before added : list TokenItem) :
  (forall t, In t added -> ~ In (address t) (addresses before)) ->
  filter (fun t => hasAddress (address t) before) added = [].
Proof.
  induction added as [|t added IH]; intros Hnew; simpl; [reflexivity|].
  assert (Ht : hasAddress (address t) before = false).
  { apply hasAddress_false_iff, Hnew. now left. }
  rewrite Ht. apply IH. intros u Hu. apply Hnew. now right.
Qed.

Lemma extends_appendOnly (before after added : list TokenItem) :
  extends before after added -> appendOnly before after.
Proof.
  intros (Heq & Hnew & Hnd). exists added. repeat split; try assumption.
  - rewrite Heq, filter_app, filter_hasAddress_self.
    now rewrite (filter_hasAddress_none _ _ Hnew), app_nil_r.
  - intros Hbefore. rewrite Heq, addresses_app.
    apply NoDup_app; [exact Hbefore | exact Hnd |].
    intros a Ha Hadded. unfold addresses in Hadded.
    apply in_map_iff in Hadded. destruct Hadded as (t & <- & Ht).
    exact (Hnew t Ht Ha).
Qed.

Section Merge.

Variable PrimaryTokens : list string.
Variable coin : Z.
Variable standardTag : string.
Variable chainName : string.
Variable logoPath : string -> string.
Variable toChecksum : string -> result string.
Variable assetID : Z -> string -> string.
Variable logoURI : string -> string -> string -> string.

Local Abbreviation loop :=
  (mergeLoop PrimaryTokens coin standardTag chainName toChecksum assetID
     logoURI).
Local Abbreviation generate :=
  (generateTokenlist PrimaryTokens coin standardTag chainName logoPath
     toChecksum assetID logoURI).

Lemma mergeLoop_extends (pairs : list PairInfo) :
  forall before tokens added,
    extends before tokens added ->
    exists added', extends before (fst (loop pairs tokens)) added'.
Proof.
  induction pairs as [|p pairs IH]; intros before tokens added H; simpl.
  - now exists added.
  - destruct (orientedPair _ _ _ _ _ _ _ p) as [[a b]|e]; simpl.
    + destruct (extends_addPairIfNeeded a b H) as (added1 & H1).
      exact (IH _ _ _ H1).
    + now exists added.
Qed.

Lemma mergeLoop_appendOnly (pairs : list PairInfo) (base : list TokenItem) :
  appendOnly base (fst (loop pairs base)).
Proof.
  destruct (mergeLoop_extends pairs (extends_refl base)) as (added & H).
  exact (extends_appendOnly H).
Qed.

Lemma generateTokenlist_tokens (fs : string -> bool) (minLiquidity : Q)
  (allowlist : list string) (pairs : list raw) (base tokens : list TokenItem) :
  generate fs minLiquidity allowlist pairs base = Ok tokens ->
  tokens =
  fst (loop (filterPairs PrimaryTokens logoPath fs minLiquidity allowlist
               pairs) base).
Proof.
  unfold generateTokenlist. rewrite retrieveUniswapPairs_total. simpl.
  destruct (mergeLoop _ _ _ _ _ _ _ _ _) as [ts [e|]]; simpl;
    congruence.
Qed.

End Merge.

(** C6: the merge only appends.  Whatever the pairs, the token list after
    the loop of [generateTokenlist] is the base list followed by tokens whose
    addresses the base list lacked, each appended once: no entry of the base
    list is removed or moved, the entries with an address of the base list
    are the base list itself, and no two entries share an address unless two
    entries of the base list did.  The same holds of the tokens that
    [generateTokenlist] hands on when it completes. *)
Theorem merge_append_only (PrimaryTokens : list string) (coin : Z)
  (standardTag chainName : string) (logoPath : string -> string)
  (toChecksum : string -> result string) (assetID : Z -> string -> string)
  (logoURI : string -> string -> string -> string)
  (base : list TokenItem) :
  (forall pairs,
     appendOnly base
       (fst (mergeLoop PrimaryTokens coin standardTag chainName toChecksum
               assetID logoURI pairs base)))
  /\ (forall fs minLiquidity allowlist pairs tokens,
        generateTokenlist PrimaryTokens coin standardTag chainName logoPath
          toChecksum assetID logoURI fs minLiquidity allowlist pairs base
        = Ok tokens ->
        appendOnly base tokens).
Proof.
  split.
  - intros pairs. apply mergeLoop_appendOnly.
  - intros fs m allow pairs tokens H.
    rewrite (generateTokenlist_tokens _ _ _ _ _ _ _ _ _ _ _ _ _ H).
    apply mergeLoop_appendOnly.
Qed.

Lemma merge_append_only_witness :
  NoDup
    (addresses
       (fst (Sample.mergeLoop
               [Sample.pairOf 2000000 Sample.weth Sample.tokenx;
                Sample.pairOf 3000000 Sample.tokenx Sample.weth]
               [Sample.item Sample.weth]))).
Proof.
  destruct (proj1 (merge_append_only Ethereum.PrimaryTokens Ethereum.coin
                     Ethereum.standardTag Ethereum.chainName
                     Sample.getChainAssetLogoPath Sample.toChecksum
                     Sample.assetID Sample.logoURI [Sample.item Sample.weth])
              [Sample.pairOf 2000000 Sample.weth Sample.tokenx;
               Sample.pairOf 3000000 Sample.tokenx Sample.weth])
    as (added & _ & _ & _ & _ & Hnodup).
  apply Hnodup. simpl. constructor; [intros [] | constructor].
Defined.

(** ** [parseInt] on numerals *)

Ltac eval_digit :=
  match goal with
  | |- context [digit_value 10 ?c] =>
      let v := eval vm_compute in (digit_value 10 c) in
      change (digit_value 10 c) with v
  end; cbv beta iota.

Lemma read_digits_acc (d : Decimal.uint) :
  forall acc : positive,
    read_digits 10 (NilEmpty.string_of_uint d) (Some (Z.pos acc))
    = Some (Z.pos (Pos.of_uint_acc d acc)).
Proof.
  induction d; intros acc;
    cbn [NilEmpty.string_of_uint read_digits Pos.of_uint_acc];
    try reflexivity; eval_digit;
    rewrite <- IHd; do 2 f_equal; lia.
Qed.

Lemma read_digits_zero (d : Decimal.uint) :
  read_digits 10 (NilEmpty.string_of_uint d) (Some 0) = Some (Z.of_uint d).
Proof.
  unfold Z.of_uint.
  induction d; cbn [NilEmpty.string_of_uint read_digits Pos.of_uint];
    try reflexivity; eval_digit;
    first [exact IHd | apply read_digits_acc].
Qed.

Lemma read_digits_numeral (d : Decimal.uint) :
  d <> Decimal.Nil ->
  read_digits 10 (NilEmpty.string_of_uint d) None = Some (Z.of_uint d).
Proof.
  intros Hd. destruct d; [contradiction| ..];
    cbn [NilEmpty.string_of_uint read_digits]; eval_digit;
    first [ exact (read_digits_zero d)
          | match goal with
            | |- read_digits _ _ (Some (Z.pos ?k)) = _ =>
                exact (read_digits_acc d k)
            end ].
Qed.

(** [parseInt] reads a decimal numeral as the number it writes. *)
Lemma parseInt_numeral (d : Decimal.uint) :
  parseInt (NilZero.string_of_uint d) = Num (Z.of_uint d).
Proof.
  assert (Hgo : forall d', d' <> Decimal.Nil ->
            d' <> Decimal.D0 Decimal.Nil ->
            parseInt (NilZero.string_of_uint d') = Num (Z.of_uint d')).
  { intros d' Hd' Hz.
    transitivity
      (match read_digits 10 (NilEmpty.string_of_uint d') None with
       | Some m => Num (1 * m)
       | None => NaN
       end).
    - destruct d' as [|l|l|l|l|l|l|l|l|l|l];
        try reflexivity; try contradiction.
      destruct l; try reflexivity; try contradiction.
    - rewrite (read_digits_numeral Hd'). now rewrite Z.mul_1_l. }
  destruct d as [|l|l|l|l|l|l|l|l|l|l]; [reflexivity| ..];
    try (apply Hgo; discriminate).
  destruct l; [reflexivity| ..]; apply Hgo; discriminate.
Qed.

(** A character of one byte that is no blank starts no blank. *)
Lemma trim_start_ascii (c : ascii) (s : string) :
  (nat_of_ascii c < 128)%nat -> is_whitespace c = false ->
  trim_start (String c s) = String c s.
Proof.
  intros Hascii Hws. cbn [trim_start]. rewrite Hws.
  unfold is_lead. apply Nat.leb_gt in Hascii. now rewrite Hascii.
Qed.

(** A text whose first character is a character of one byte that is
    neither a blank, nor a sign, nor a decimal digit is read as [NaN]. *)
Lemma parseInt_no_digit (c : ascii) (s : string) :
  (nat_of_ascii c < 128)%nat ->
  is_whitespace c = false -> c <> "+"%char -> c <> "-"%char ->
  digit_value 10 c = None ->
  parseInt (String c s) = NaN.
Proof.
  intros Hascii Hws Hplus Hminus Hdigit.
  unfold parseInt. rewrite (@trim_start_ascii c s Hascii Hws).
  destruct c as [[] [] [] [] [] [] [] []];
    try discriminate Hws; try discriminate Hdigit;
    try (exfalso; apply Hplus; reflexivity);
    try (exfalso; apply Hminus; reflexivity);
    cbv beta iota; cbn [read_digits]; rewrite Hdigit; reflexivity.
Qed.

(** [parseInt] skips a leading blank, whatever its length in bytes. *)
Lemma trim_start_blank (b s : string) :
  blank b = true -> trim_start (b ++ s)%string = trim_start s.
Proof.
  destruct b as [|c1 [|c2 [|c3 [|c4 b]]]]; try discriminate; simpl blank;
    intros Hb.
  - cbn [append trim_start]. now rewrite Hb.
  - assert (H1 : is_whitespace c1 = false /\ is_lead c1 = true).
    { destruct c1 as [[] [] [] [] [] [] [] []];
        first [discriminate Hb | split; reflexivity]. }
    destruct H1 as (Hws & Hlead).
    cbn [append trim_start]. now rewrite Hws, Hlead, Hb.
  - assert (H1 : is_whitespace c1 = false /\ is_lead c1 = true
                 /\ is_blank2 c1 c2 = false).
    { destruct c1 as [[] [] [] [] [] [] [] []];
        first [discriminate Hb | repeat split; reflexivity]. }
    destruct H1 as (Hws & Hlead & H2).
    cbn [append trim_start]. now rewrite Hws, Hlead, H2, Hb.
Qed.

Lemma parseInt_blank (b s : string) :
  blank b = true -> parseInt (b ++ s)%string = parseInt s.
Proof.
  intros Hb. unfold parseInt. now rewrite (trim_start_blank b s Hb).
Qed.

(** ** Canonicalisation *)

Section Canonical.

Variable PrimaryTokens : list string.
Variable coin : Z.
Variable standardTag : string.
Variable chainName : string.
Variable toChecksum : string -> result string.
Variable assetID : Z -> string -> string.
Variable logoURI : string -> string -> string -> string.

Local Abbreviation canonical :=
  (tokenInfoFromSubgraphToken coin standardTag chainName toChecksum assetID
     logoURI).
Local Abbreviation oriented :=
  (orientedPair PrimaryTokens coin standardTag chainName toChecksum assetID
     logoURI).

Lemma tokenInfoFromSubgraphToken_ok (token : TokenInfo) (a : string) :
  toChecksum (id token) = Ok a ->
  canonical token =
  Ok (mkTokenItem (assetID coin a) standardTag a (name token) (symbol token)
        (parseInt (decimals token)) (logoURI a chainName "--") []).
Proof.
  intros H. unfold tokenInfoFromSubgraphToken. now rewrite H.
Qed.

Lemma tokenInfoFromSubgraphToken_throw (token : TokenInfo) (e : error) :
  canonical token = Throw e <-> toChecksum (id token) = Throw e.
Proof.
  unfold tokenInfoFromSubgraphToken.
  destruct (toChecksum (id token)); simpl; split; congruence.
Qed.

Lemma tokenInfoFromSubgraphToken_symbol (token : TokenInfo)
  (item : TokenItem) :
  canonical token = Ok item -> item_symbol item = symbol token.
Proof.
  unfold tokenInfoFromSubgraphToken.
  destruct (toChecksum (id token)); simpl; [|discriminate].
  now intros [= <-].
Qed.

(** The pair handed to [addPairIfNeeded] when both tokens are there and
    both are canonicalised. *)
Lemma orientedPair_present (p : PairInfo) (t0 t1 : TokenInfo)
  (item0 item1 : TokenItem) :
  token0 p = Some t0 -> token1 p = Some t1 ->
  canonical t0 = Ok item0 -> canonical t1 = Ok item1 ->
  oriented p =
  Ok (if isTokenPrimary PrimaryTokens t0 then (item0, item1)
      else if isTokenPrimary PrimaryTokens t1 then (item1, item0)
      else (item0, item1)).
Proof.
  intros H0 H1 C0 C1. unfold orientedPair.
  rewrite H0. simpl. rewrite C0. simpl. rewrite H1. simpl. rewrite C1. simpl.
  rewrite (primaryTokenIndex_present PrimaryTokens p H0 H1). simpl.
  destruct (isTokenPrimary PrimaryTokens t0); [reflexivity|].
  now destruct (isTokenPrimary PrimaryTokens t1).
Qed.

End Canonical.

(** C4 as the code has it: [tokenInfoFromSubgraphToken] reads the decimals
    with [parseInt] and never fails on their account.  It throws exactly
    when the checksum of the address throws; otherwise it returns a token
    item whose decimals are what [parseInt] reads: the number written, for a
    decimal numeral, also behind a blank, and [NaN] for a text that starts
    with a character of one byte that is neither a blank, a sign nor a
    digit. *)
Theorem canonical_decimals_parsed (coin : Z) (standardTag chainName : string)
  (toChecksum : string -> result string) (assetID : Z -> string -> string)
  (logoURI : string -> string -> string -> string) (token : TokenInfo) :
  (forall e,
     tokenInfoFromSubgraphToken coin standardTag chainName toChecksum assetID
       logoURI token = Throw e
     <-> toChecksum (id token) = Throw e)
  /\ (forall a,
        toChecksum (id token) = Ok a ->
        exists item,
          tokenInfoFromSubgraphToken coin standardTag chainName toChecksum
            assetID logoURI token = Ok item
          /\ address item = a
          /\ item_decimals item = parseInt (decimals token)
          /\ (forall d, decimals token = NilZero.string_of_uint d ->
                        item_decimals item = Num (Z.of_uint d))
          /\ (forall b d,
                blank b = true ->
                decimals token = (b ++ NilZero.string_of_uint d)%string ->
                item_decimals item = Num (Z.of_uint d))
          /\ (forall c s,
                decimals token = String c s ->
                (nat_of_ascii c < 128)%nat ->
                is_whitespace c = false ->
                c <> "+"%char -> c <> "-"%char ->
                digit_value 10 c = None ->
                item_decimals item = NaN)).
Proof.
  split.
  - intros e. apply tokenInfoFromSubgraphToken_throw.
  - intros a Ha. eexists. split.
    + apply (tokenInfoFromSubgraphToken_ok _ _ _ _ _ _ _ Ha).
    + simpl. repeat split.
      * intros d ->. apply parseInt_numeral.
      * intros b d Hb ->. rewrite (parseInt_blank b _ Hb).
        apply parseInt_numeral.
      * intros c s -> Hascii Hws Hplus Hminus Hdigit.
        now apply parseInt_no_digit.
Qed.

Lemma canonical_decimals_parsed_witness :
  exists item,
    Sample.tokenInfoFromSubgraphToken Sample.weth = Ok item
    /\ address item = "0xc02aaa39b223fe8d0a0e5c4f27ead9083c756cc2"
    /\ item_decimals item = Num 18.
Proof.
  destruct (proj2 (canonical_decimals_parsed Ethereum.coin
                     Ethereum.standardTag Ethereum.chainName
                     Sample.toChecksum Sample.assetID Sample.logoURI
                     Sample.weth)
              "0xc02aaa39b223fe8d0a0e5c4f27ead9083c756cc2" eq_refl)
    as (item & Hitem & Haddr & _ & Hnum & _).
  exists item. split; [exact Hitem|]. split; [exact Haddr|].
  exact (Hnum (Decimal.D1 (Decimal.D8 Decimal.Nil)) eq_refl).
Defined.

(** C4 as stated fails: the decimals of the token are no numeral, and yet
    the token is canonicalised, with [NaN] for decimals. *)
Lemma canonical_unparsable_decimals :
  decimals Sample.tokenz = "eighteen"
  /\ exists item,
       Sample.tokenInfoFromSubgraphToken Sample.tokenz = Ok item
       /\ item_decimals item = NaN.
Proof.
  split; [reflexivity|]. eexists. split; reflexivity.
Qed.

(** ** Orientation *)

(** C1 as the code has it: for a pair that [checkTradingPair] accepts and
    whose two tokens are canonicalised, the pair handed to the merge has the
    primary token first.  The two token items are swapped exactly when
    [primaryTokenIndex] answers 2, so that the primary token is inserted
    before its partner; on the empty list and on the list that holds only
    the primary token, the merge of a pair with two distinct addresses
    gives the primary token followed by its partner. *)
Theorem oriented_primary_first (PrimaryTokens : list string) (coin : Z)
  (standardTag chainName : string) (logoPath : string -> string)
  (toChecksum : string -> result string) (assetID : Z -> string -> string)
  (logoURI : string -> string -> string -> string)
  (fs : string -> bool) (p : PairInfo) (minLiquidity : Q)
  (allowlist : list string) :
  checkTradingPair PrimaryTokens logoPath fs p minLiquidity allowlist
  = Ok true ->
  exists t0 t1,
    token0 p = Some t0 /\ token1 p = Some t1
    /\ forall item0 item1,
         tokenInfoFromSubgraphToken coin standardTag chainName toChecksum
           assetID logoURI t0 = Ok item0 ->
         tokenInfoFromSubgraphToken coin standardTag chainName toChecksum
           assetID logoURI t1 = Ok item1 ->
         exists a b,
           orientedPair PrimaryTokens coin standardTag chainName toChecksum
             assetID logoURI p = Ok (a, b)
           /\ ((primaryTokenIndex PrimaryTokens p = Ok 2
                /\ a = item1 /\ b = item0)
               \/ (primaryTokenIndex PrimaryTokens p = Ok 1
                   /\ a = item0 /\ b = item1))
           /\ primaryItem PrimaryTokens a
           /\ (forall tokens,
                 mergeLoop PrimaryTokens coin standardTag chainName toChecksum
                   assetID logoURI [p] tokens
                 = (addPairIfNeeded a b tokens, None))
           /\ (address a <> address b ->
               addPairIfNeeded a b [] = [a; b]
               /\ addPairIfNeeded a b [a] = [a; b]).
Proof.
  intros Hok. apply checkTradingPair_true_iff in Hok.
  destruct Hok as (_ & _ & t0 & t1 & H0 & H1 & _ & _ & Hprim).
  exists t0, t1. split; [exact H0|]. split; [exact H1|].
  intros item0 item1 C0 C1.
  pose proof (orientedPair_present PrimaryTokens _ _ _ _ _ _ p H0 H1 C0 C1)
    as Hor.
  pose proof (primaryTokenIndex_present PrimaryTokens p H0 H1) as Hidx.
  pose proof (tokenInfoFromSubgraphToken_symbol _ _ _ _ _ _ _ C0) as S0.
  pose proof (tokenInfoFromSubgraphToken_symbol _ _ _ _ _ _ _ C1) as S1.
  assert (Hmerge : forall a b,
    addPairIfNeeded a b [] = addTokenIfNeeded b [a]
    /\ (address a <> address b ->
        addTokenIfNeeded b [a] = [a; b]
        /\ addPairIfNeeded a b [a] = [a; b])).
  { intros a b. split; [reflexivity|]. intros Hne.
    assert (Hb : addTokenIfNeeded b [a] = [a; b]).
    { unfold addTokenIfNeeded, hasAddress. simpl.
      destruct (String.eqb (address a) (address b)) eqn:E; [|reflexivity].
      apply String.eqb_eq in E. contradiction. }
    split; [exact Hb|].
    unfold addPairIfNeeded. unfold addTokenIfNeeded at 2.
    unfold hasAddress. simpl. rewrite String.eqb_refl. simpl. exact Hb. }
  assert (Hgoal : forall a b,
    orientedPair PrimaryTokens coin standardTag chainName toChecksum assetID
      logoURI p = Ok (a, b) ->
    primaryItem PrimaryTokens a ->
    (forall tokens,
       mergeLoop PrimaryTokens coin standardTag chainName toChecksum assetID
         logoURI [p] tokens
       = (addPairIfNeeded a b tokens, None))
    /\ (address a <> address b ->
        addPairIfNeeded a b [] = [a; b] /\ addPairIfNeeded a b [a] = [a; b])).
  { intros a b Hab _. split.
    - intros tokens. simpl. now rewrite Hab.
    - intros Hne. destruct (Hmerge a b) as (He & Hrest).
      destruct (Hrest Hne) as (Hb & Ha). rewrite He. auto. }
  destruct (isTokenPrimary PrimaryTokens t0) eqn:P0.
  - exists item0, item1. split; [exact Hor|].
    split; [right; auto|].
    assert (Hp : primaryItem PrimaryTokens item0).
    { unfold primaryItem. rewrite S0. now apply isTokenPrimary_iff. }
    split; [exact Hp|]. now apply Hgoal.
  - destruct (isTokenPrimary PrimaryTokens t1) eqn:P1.
    + exists item1, item0. split; [exact Hor|].
      split; [left; auto|].
      assert (Hp : primaryItem PrimaryTokens item1).
      { unfold primaryItem. rewrite S1. now apply isTokenPrimary_iff. }
      split; [exact Hp|]. now apply Hgoal.
    + destruct Hprim; discriminate.
Qed.

Lemma oriented_primary_first_witness :
  Sample.orientedPair (Sample.pairOf 2000000 Sample.tokenx Sample.weth)
  = Ok (Sample.item Sample.weth, Sample.item Sample.tokenx).
Proof.
  destruct (@oriented_primary_first Ethereum.PrimaryTokens Ethereum.coin
              Ethereum.standardTag Ethereum.chainName
              Sample.getChainAssetLogoPath Sample.toChecksum Sample.assetID
              Sample.logoURI Sample.logos
              (Sample.pairOf 2000000 Sample.tokenx Sample.weth)
              Ethereum.Uniswap_MinLiquidity Sample.allowlist eq_refl)
    as (t0 & t1 & H0 & H1 & H).
  injection H0 as <-. injection H1 as <-.
  destruct (H (Sample.item Sample.tokenx) (Sample.item Sample.weth)
              eq_refl eq_refl)
    as (a & b & Hor & [(_ & -> & ->) | (Hidx & _)] & _).
  - exact Hor.
  - vm_compute in Hidx. discriminate Hidx.
Defined.

(** C1 as stated fails: WETH is the first token of the pair and the primary
    one; the pair handed to the merge has WETH first and its partner, which
    is not primary, second; on the empty list WETH is inserted before its
    partner. *)
Lemma oriented_primary_not_second :
  checkTradingPair Ethereum.PrimaryTokens Sample.getChainAssetLogoPath
    Sample.logos (Sample.pairOf 2000000 Sample.weth Sample.tokenx)
    Ethereum.Uniswap_MinLiquidity Sample.allowlist
  = Ok true
  /\ Sample.orientedPair (Sample.pairOf 2000000 Sample.weth Sample.tokenx)
     = Ok (Sample.item Sample.weth, Sample.item Sample.tokenx)
  /\ primaryItem Ethereum.PrimaryTokens (Sample.item Sample.weth)
  /\ ~ primaryItem Ethereum.PrimaryTokens (Sample.item Sample.tokenx)
  /\ Sample.mergeLoop [Sample.pairOf 2000000 Sample.weth Sample.tokenx] []
     = ([Sample.item Sample.weth; Sample.item Sample.tokenx], None).
Proof.
  split; [reflexivity|]. split; [reflexivity|]. split; [now left|].
  split; [|reflexivity].
  intros [H | [H | []]]; discriminate H.
Qed.

(** ** Exceptions and the two loops *)

(** C5 as the code has it: the pairs are isolated from one another where
    they are filtered.  [retrieveUniswapPairs] never throws; a pair on which
    [checkTradingPair] throws is dropped, and the pairs before and after it
    are filtered as if it were not there; the pairs kept are those that
    [checkTradingPair] accepts. *)
Theorem filter_isolates_pairs (PrimaryTokens : list string)
  (logoPath : string -> string) (fs : string -> bool) (minLiquidity : Q)
  (allowlist : list string) :
  (forall pairs,
     retrieveUniswapPairs PrimaryTokens logoPath fs minLiquidity allowlist
       pairs
     = Ok (filterPairs PrimaryTokens logoPath fs minLiquidity allowlist pairs))
  /\ (forall p e before after,
        checkTradingPair PrimaryTokens logoPath fs p minLiquidity allowlist
        = Throw e ->
        filterPairs PrimaryTokens logoPath fs minLiquidity allowlist
          (before ++ Obj p :: after)
        = filterPairs PrimaryTokens logoPath fs minLiquidity allowlist before
          ++ filterPairs PrimaryTokens logoPath fs minLiquidity allowlist
               after)
  /\ (forall p pairs,
        In p (filterPairs PrimaryTokens logoPath fs minLiquidity allowlist
                pairs)
        <-> In (Obj p) pairs
            /\ checkTradingPair PrimaryTokens logoPath fs p minLiquidity
                 allowlist = Ok true).
Proof.
  split; [|split].
  - intros pairs. apply retrieveUniswapPairs_total.
  - intros p e before after Hthrow.
    rewrite filterPairs_app, filterPairs_cons.
    now rewrite (filterStep_throw _ _ _ _ _ _ Hthrow).
  - intros p pairs. apply In_filterPairs.
Qed.

Lemma filter_isolates_pairs_witness :
  filterPairs Ethereum.PrimaryTokens Sample.getChainAssetLogoPath
    Sample.logos Ethereum.Uniswap_MinLiquidity Sample.allowlist
    ([Obj (Sample.pairOf 2000000 Sample.weth Sample.tokenx)]
     ++ Obj (mkPairInfo (Some "0xa478") (Some 2000000%Q) None
               (Some Sample.weth))
     :: [Obj (Sample.pairOf 3000000 Sample.eth Sample.tokenz)])
  = filterPairs Ethereum.PrimaryTokens Sample.getChainAssetLogoPath
      Sample.logos Ethereum.Uniswap_MinLiquidity Sample.allowlist
      [Obj (Sample.pairOf 2000000 Sample.weth Sample.tokenx)]
    ++ filterPairs Ethereum.PrimaryTokens Sample.getChainAssetLogoPath
         Sample.logos Ethereum.Uniswap_MinLiquidity Sample.allowlist
         [Obj (Sample.pairOf 3000000 Sample.eth Sample.tokenz)].
Proof.
  exact (proj1 (proj2 (filter_isolates_pairs Ethereum.PrimaryTokens
                         Sample.getChainAssetLogoPath Sample.logos
                         Ethereum.Uniswap_MinLiquidity Sample.allowlist))
           (mkPairInfo (Some "0xa478") (Some 2000000%Q) None
              (Some Sample.weth))
           TypeError
           [Obj (Sample.pairOf 2000000 Sample.weth Sample.tokenx)]
           [Obj (Sample.pairOf 3000000 Sample.eth Sample.tokenz)]
           eq_refl).
Defined.

(** C5 as stated fails: the pair of WETH and TOKENY is accepted, its
    canonicalisation throws, and no handler stands between that exception
    and [generateTokenlist]: the run ends there, although the pair that
    follows would have been merged. *)
Lemma merge_loop_not_isolated :
  checkTradingPair Ethereum.PrimaryTokens Sample.getChainAssetLogoPath
    Sample.logos (Sample.pairOf 2000000 Sample.weth Sample.tokeny)
    Ethereum.Uniswap_MinLiquidity Sample.allowlist
  = Ok true
  /\ Sample.orientedPair (Sample.pairOf 2000000 Sample.weth Sample.tokeny)
     = Throw InvalidAddress
  /\ Sample.generateTokenlist Sample.logos Ethereum.Uniswap_MinLiquidity
       Sample.allowlist
       [Obj (Sample.pairOf 2000000 Sample.weth Sample.tokeny);
        Obj (Sample.pairOf 2000000 Sample.weth Sample.tokenx)]
       [Sample.item Sample.weth]
     = Throw InvalidAddress
  /\ Sample.generateTokenlist Sample.logos Ethereum.Uniswap_MinLiquidity
       Sample.allowlist
       [Obj (Sample.pairOf 2000000 Sample.weth Sample.tokenx)]
       [Sample.item Sample.weth]
     = Ok [Sample.item Sample.weth; Sample.item Sample.tokenx].
Proof. repeat split; reflexivity. Qed.

(** ** Further properties of the pair filter *)

Section FilterMore.

Variable PrimaryTokens : list string.
Variable logoPath : string -> string.

Local Abbreviation check := (checkTradingPair PrimaryTokens logoPath).

(** On a pair with both tokens [checkTradingPair] answers: [true] when
    both tokens are supported, one is primary and the first two tests
    pass. *)
Lemma checkTradingPair_present (fs : string -> bool) (p : PairInfo)
  (minLiquidity : Q) (allowlist : list string) (t0 t1 : TokenInfo) :
  token0 p = Some t0 -> token1 p = Some t1 ->
  check fs p minLiquidity allowlist =
  Ok (negb (belowLiquidity p minLiquidity)
      && checkEthTokenExists logoPath fs (id t0) allowlist
      && checkEthTokenExists logoPath fs (id t1) allowlist
      && (isTokenPrimary PrimaryTokens t0 || isTokenPrimary PrimaryTokens t1)).
Proof.
  intros H0 H1. unfold checkTradingPair.
  assert (Hs : structurallyEmpty p = false).
  { unfold structurallyEmpty, not_object. rewrite H0. simpl.
    now rewrite andb_false_r. }
  rewrite Hs.
  destruct (belowLiquidity p minLiquidity); [reflexivity|].
  rewrite H0. simpl. unfold logSymbols. rewrite H0, H1. simpl.
  destruct (checkEthTokenExists logoPath fs (id t0) allowlist);
    [|reflexivity].
  destruct (checkEthTokenExists logoPath fs (id t1) allowlist);
    [|reflexivity].
  simpl. rewrite (primaryTokenIndex_present PrimaryTokens p H0 H1). simpl.
  destruct (isTokenPrimary PrimaryTokens t0); [reflexivity|].
  now destruct (isTokenPrimary PrimaryTokens t1).
Qed.

(** X1: [checkTradingPair] throws exactly on a pair that passes the first
    two tests and lacks a token, and what it throws is a [TypeError]; on a
    pair with both tokens it always answers. *)
Theorem checkTradingPair_throws_iff (fs : string -> bool) (p : PairInfo)
  (minLiquidity : Q) (allowlist : list string) (e : error) :
  check fs p minLiquidity allowlist = Throw e
  <-> e = TypeError
      /\ structurallyEmpty p = false
      /\ belowLiquidity p minLiquidity = false
      /\ (token0 p = None \/ token1 p = None).
Proof.
  split.
  - intros H.
    destruct (structurallyEmpty p) eqn:Hs.
    { unfold checkTradingPair in H. rewrite Hs in H. discriminate. }
    destruct (belowLiquidity p minLiquidity) eqn:Hb.
    { unfold checkTradingPair in H. rewrite Hs, Hb in H. discriminate. }
    destruct (token0 p) as [t0|] eqn:H0.
    + destruct (token1 p) as [t1|] eqn:H1.
      * rewrite (checkTradingPair_present fs p minLiquidity allowlist H0 H1)
          in H. discriminate.
      * rewrite (checkTradingPair_missing_token PrimaryTokens logoPath fs p
                   minLiquidity allowlist Hs Hb (or_intror H1)) in H.
        injection H as <-. auto.
    + rewrite (checkTradingPair_missing_token PrimaryTokens logoPath fs p
                 minLiquidity allowlist Hs Hb (or_introl H0)) in H.
      injection H as <-. auto.
  - intros (-> & Hs & Hb & Hmiss).
    now apply checkTradingPair_missing_token.
Qed.

(** X2: [primaryTokenIndex] answers 0, 1 or 2, and throws, a [TypeError],
    exactly when the first token is absent or when the first token is not
    primary and the second is absent: the second token is not read when the
    first is primary. *)
Theorem primaryTokenIndex_throws_iff (p : PairInfo) :
  (forall e,
     primaryTokenIndex PrimaryTokens p = Throw e
     <-> e = TypeError
         /\ (token0 p = None
             \/ exists t0, token0 p = Some t0
                           /\ isTokenPrimary PrimaryTokens t0 = false
                           /\ token1 p = None))
  /\ (forall i, primaryTokenIndex PrimaryTokens p = Ok i ->
                i = 0 \/ i = 1 \/ i = 2).
Proof.
  unfold primaryTokenIndex. split.
  - intros e. destruct (token0 p) as [t0|]; simpl.
    + destruct (isTokenPrimary PrimaryTokens t0) eqn:P0.
      * split; [discriminate|].
        intros (_ & [H | (t & [= <-] & H & _)]); congruence.
      * destruct (token1 p) as [t1|]; simpl.
        -- destruct (isTokenPrimary PrimaryTokens t1);
             (split; [discriminate|]);
             intros (_ & [H | (t & _ & _ & H)]); discriminate.
        -- split.
           ++ intros [= <-]. split; [reflexivity|]. right. now exists t0.
           ++ now intros (-> & _).
    + split.
      * intros [= <-]. auto.
      * now intros (-> & _).
  - intros i. destruct (token0 p) as [t0|]; simpl; [|discriminate].
    destruct (isTokenPrimary PrimaryTokens t0).
    + intros [= <-]. auto.
    + destruct (token1 p) as [t1|]; simpl; [|discriminate].
      destruct (isTokenPrimary PrimaryTokens t1); intros [= <-]; auto.
Qed.

(** X3: the first loop of [retrieveUniswapPairs] is a filter: the pairs kept
    are the objects of the input that [checkTradingPair] accepts, in the
    order of the input and as often as they occur there. *)
Theorem filterPairs_is_filter (fs : string -> bool) (minLiquidity : Q)
  (allowlist : list string) (pairs : list raw) :
  map Obj (filterPairs PrimaryTokens logoPath fs minLiquidity allowlist pairs)
  = filter (keeps PrimaryTokens logoPath fs minLiquidity allowlist) pairs.
Proof.
  induction pairs as [|x pairs IH]; [reflexivity|].
  rewrite filterPairs_cons, map_app, IH. simpl.
  destruct x as [| |q]; simpl; try reflexivity.
  destruct (checkTradingPair _ _ _ q _ _) as [[|]|e]; reflexivity.
Qed.

Lemma filterPairs_all_kept (fs : string -> bool) (minLiquidity : Q)
  (allowlist : list string) (ps : list PairInfo) :
  (forall q, In q ps ->
     checkTradingPair PrimaryTokens logoPath fs q minLiquidity allowlist
     = Ok true) ->
  filterPairs PrimaryTokens logoPath fs minLiquidity allowlist (map Obj ps)
  = ps.
Proof.
  induction ps as [|q ps IH]; intros Hall; [reflexivity|].
  simpl map. rewrite filterPairs_cons. unfold filterStep.
  rewrite (Hall q (or_introl eq_refl)). simpl. f_equal.
  apply IH. intros r Hr. apply Hall. now right.
Qed.

(** X4: acceptance is monotone.  A pair that is accepted stays accepted
    when the floor is lowered, when entries are added to the allowlist and
    when logo files are added. *)
Theorem acceptance_monotone (fs fs' : string -> bool) (p : PairInfo)
  (minLiquidity minLiquidity' : Q) (allowlist allowlist' : list string) :
  check fs p minLiquidity allowlist = Ok true ->
  (minLiquidity' <= minLiquidity)%Q ->
  incl allowlist allowlist' ->
  (forall path, fs path = true -> fs' path = true) ->
  check fs' p minLiquidity' allowlist' = Ok true.
Proof.
  intros Hok Hle Hincl Hfs.
  apply checkTradingPair_true_iff in Hok.
  destruct Hok as (Hs & Hb & t0 & t1 & H0 & H1 & E0 & E1 & Hprim).
  apply checkTradingPair_true_iff.
  split; [exact Hs|]. split.
  - unfold belowLiquidity in *. destruct (reserveUSD p) as [r|]; [|reflexivity].
    apply Qltb_false_iff. apply Qltb_false_iff in Hb.
    now apply Qle_trans with minLiquidity.
  - assert (Hsup : forall t, checkEthTokenExists logoPath fs (id t) allowlist
                             = true ->
                             checkEthTokenExists logoPath fs' (id t) allowlist'
                             = true).
    { intros t Ht. apply checkEthTokenExists_iff.
      apply checkEthTokenExists_iff in Ht. destruct Ht as (Hlogo & a & Ha & Heq).
      split; [now apply Hfs|]. exists a. split; [now apply Hincl | exact Heq]. }
    exists t0, t1. repeat split; auto.
Qed.

Lemma allowlist_find_iff (i : string) (allowlist : list string) :
  is_defined
    (find_first (fun t => String.eqb (toLowerCase i) (toLowerCase t))
       allowlist) = true
  <-> In (toLowerCase i) (map toLowerCase allowlist).
Proof.
  rewrite is_defined_find_iff, in_map_iff. split.
  - intros (a & Hin & Heq). apply String.eqb_eq in Heq. exists a. auto.
  - intros (a & Heq & Hin). exists a. split; [exact Hin|].
    apply String.eqb_eq. now symmetry.
Qed.

Lemma checkEthTokenExists_same_entries (fs : string -> bool) (i : string)
  (allowlist allowlist' : list string) :
  (forall a, In a (map toLowerCase allowlist)
             <-> In a (map toLowerCase allowlist')) ->
  checkEthTokenExists logoPath fs i allowlist
  = checkEthTokenExists logoPath fs i allowlist'.
Proof.
  intros Hsame. unfold checkEthTokenExists.
  destruct (negb (fs (logoPath i))); [reflexivity|].
  assert (Hd :
    is_defined
      (find_first (fun t => String.eqb (toLowerCase i) (toLowerCase t))
         allowlist)
    = is_defined
        (find_first (fun t => String.eqb (toLowerCase i) (toLowerCase t))
           allowlist')).
  { apply eq_true_iff_eq. rewrite !allowlist_find_iff. apply Hsame. }
  now rewrite Hd.
Qed.

(** X5: the allowlist counts as a set of addresses up to letter case.  Two
    allowlists with the same entries once in lower case, whatever the order,
    the repetitions and the case of their entries, give the same answer on
    every pair. *)
Theorem allowlist_up_to_case_and_order (fs : string -> bool) (p : PairInfo)
  (minLiquidity : Q) (allowlist allowlist' : list string) :
  (forall a, In a (map toLowerCase allowlist)
             <-> In a (map toLowerCase allowlist')) ->
  check fs p minLiquidity allowlist = check fs p minLiquidity allowlist'.
Proof.
  intros Hsame. unfold checkTradingPair.
  destruct (structurallyEmpty p); [reflexivity|].
  destruct (belowLiquidity p minLiquidity); [reflexivity|].
  destruct (token0 p) as [t0|]; simpl; [|reflexivity].
  rewrite (checkEthTokenExists_same_entries fs (id t0) _ _ Hsame).
  destruct (negb _); [reflexivity|].
  destruct (token1 p) as [t1|]; simpl; [|reflexivity].
  now rewrite (checkEthTokenExists_same_entries fs (id t1) _ _ Hsame).
Qed.

(** X6: the id of a pair plays no part unless everything else is missing.
    For a pair that has a token, or a reserve other than zero, the answer
    is the same whatever its id, absent and empty included. *)
Theorem pair_id_irrelevant (fs : string -> bool) (p : PairInfo)
  (minLiquidity : Q) (allowlist : list string) (i : option string) :
  (exists r, reserveUSD p = Some r /\ ~ (r == 0)%Q)
  \/ token0 p <> None \/ token1 p <> None ->
  check fs (withId i p) minLiquidity allowlist
  = check fs p minLiquidity allowlist.
Proof.
  intros Hhas.
  assert (Hrest : not_number (reserveUSD p) && not_object (token0 p)
                  && not_object (token1 p) = false).
  { destruct Hhas as [(r & Hr & Hnz) | [H | H]].
    - rewrite Hr. simpl.
      destruct (Qeq_bool r 0) eqn:E; [|reflexivity].
      apply Qeq_bool_iff in E. contradiction.
    - destruct (token0 p); [|contradiction].
      simpl. now rewrite andb_false_r.
    - destruct (token1 p); [|contradiction].
      simpl. now rewrite andb_false_r. }
  assert (Hs : forall q, reserveUSD q = reserveUSD p -> token0 q = token0 p ->
                         token1 q = token1 p -> structurallyEmpty q = false).
  { intros q Hr H0 H1. unfold structurallyEmpty. rewrite Hr, H0, H1.
    destruct (not_id (pair_id q)), (not_number (reserveUSD p)),
      (not_object (token0 p)), (not_object (token1 p));
      simpl in *; congruence. }
  unfold checkTradingPair.
  rewrite (Hs (withId i p) eq_refl eq_refl eq_refl).
  rewrite (Hs p eq_refl eq_refl eq_refl).
  reflexivity.
Qed.

(** X8: the answer does not depend on which of the two tokens the subgraph
    lists first: a pair with both tokens and the pair with its tokens
    exchanged get the same answer. *)
Theorem checkTradingPair_swap (fs : string -> bool) (p : PairInfo)
  (minLiquidity : Q) (allowlist : list string) (t0 t1 : TokenInfo) :
  token0 p = Some t0 -> token1 p = Some t1 ->
  check fs (swapTokens p) minLiquidity allowlist
  = check fs p minLiquidity allowlist.
Proof.
  intros H0 H1.
  rewrite (checkTradingPair_present fs p minLiquidity allowlist H0 H1).
  rewrite (checkTradingPair_present fs (swapTokens p) minLiquidity allowlist
             (t0 := t1) (t1 := t0) H1 H0).
  f_equal. unfold belowLiquidity. simpl.
  destruct (negb _), (checkEthTokenExists logoPath fs (id t0) allowlist),
    (checkEthTokenExists logoPath fs (id t1) allowlist),
    (isTokenPrimary PrimaryTokens t0), (isTokenPrimary PrimaryTokens t1);
    reflexivity.
Qed.

(** X9: filtering is idempotent: the pairs kept, filtered once more, are
    all kept. *)
Theorem filterPairs_idempotent (fs : string -> bool) (minLiquidity : Q)
  (allowlist : list string) (pairs : list raw) :
  filterPairs PrimaryTokens logoPath fs minLiquidity allowlist
    (map Obj (filterPairs PrimaryTokens logoPath fs minLiquidity allowlist
                pairs))
  = filterPairs PrimaryTokens logoPath fs minLiquidity allowlist pairs.
Proof.
  apply filterPairs_all_kept. intros q Hq.
  now apply In_filterPairs in Hq.
Qed.

(** X10: with an empty allowlist, or in a repository without logo files, no
    pair is kept. *)
Theorem nothing_supported_nothing_kept (fs : string -> bool)
  (minLiquidity : Q) (allowlist : list string) (pairs : list raw) :
  allowlist = [] \/ (forall path, fs path = false) ->
  retrieveUniswapPairs PrimaryTokens logoPath fs minLiquidity allowlist pairs
  = Ok [].
Proof.
  intros Hnone. rewrite retrieveUniswapPairs_total. f_equal.
  destruct (filterPairs PrimaryTokens logoPath fs minLiquidity allowlist pairs)
    as [|q qs] eqn:Hk; [reflexivity|].
  assert (Hq : In q (filterPairs PrimaryTokens logoPath fs minLiquidity
                       allowlist pairs)) by (rewrite Hk; now left).
  apply In_filterPairs in Hq. destruct Hq as (_ & Hq).
  apply checkTradingPair_true_iff in Hq.
  destruct Hq as (_ & _ & t0 & _ & _ & _ & E0 & _).
  apply checkEthTokenExists_iff in E0. destruct E0 as (Hlogo & a & Ha & _).
  destruct Hnone as [-> | Hfs]; [contradiction|].
  rewrite Hfs in Hlogo. discriminate.
Qed.

End FilterMore.

(** ** Further properties of the merge *)

Lemma addresses_addTokenIfNeeded (t : TokenItem) (tokens : list TokenItem)
  (a : string) :
  In a (addresses (addTokenIfNeeded t tokens))
  <-> a = address t \/ In a (addresses tokens).
Proof.
  unfold addTokenIfNeeded.
  destruct (hasAddress (address t) tokens) eqn:Hhas.
  - apply hasAddress_true_iff in Hhas. split; [auto|].
    intros [-> | H]; assumption.
  - rewrite addresses_app, in_app_iff. simpl. split.
    + intros [H | [<- | []]]; auto.
    + intros [-> | H]; auto.
Qed.

Lemma addresses_addPairIfNeeded (a b : TokenItem) (tokens : list TokenItem)
  (x : string) :
  In x (addresses (addPairIfNeeded a b tokens))
  <-> x = address a \/ x = address b \/ In x (addresses tokens).
Proof.
  unfold addPairIfNeeded. rewrite !addresses_addTokenIfNeeded. tauto.
Qed.

Lemma addPairIfNeeded_present (a b : TokenItem) (tokens : list TokenItem) :
  In (address a) (addresses tokens) -> In (address b) (addresses tokens) ->
  addPairIfNeeded a b tokens = tokens.
Proof.
  intros Ha Hb. unfold addPairIfNeeded, addTokenIfNeeded.
  apply hasAddress_true_iff in Ha. apply hasAddress_true_iff in Hb.
  now rewrite Ha, Hb.
Qed.

Lemma In_addPairIfNeeded (a b t : TokenItem) (tokens : list TokenItem) :
  In t (addPairIfNeeded a b tokens) -> t = a \/ t = b \/ In t tokens.
Proof.
  unfold addPairIfNeeded, addTokenIfNeeded.
  destruct (hasAddress (address a) tokens).
  - destruct (hasAddress (address b) tokens); [auto|].
    rewrite in_app_iff. simpl. intros [H | [<- | []]]; auto.
  - destruct (hasAddress (address b) (tokens ++ [a]));
      rewrite ?in_app_iff; simpl; intuition.
Qed.

Section MergeMore.

Variable PrimaryTokens : list string.
Variable coin : Z.
Variable standardTag : string.
Variable chainName : string.
Variable logoPath : string -> string.
Variable toChecksum : string -> result string.
Variable assetID : Z -> string -> string.
Variable logoURI : string -> string -> string -> string.

Local Abbreviation check := (checkTradingPair PrimaryTokens logoPath).
Local Abbreviation canonical :=
  (tokenInfoFromSubgraphToken coin standardTag chainName toChecksum assetID
     logoURI).
Local Abbreviation oriented :=
  (orientedPair PrimaryTokens coin standardTag chainName toChecksum assetID
     logoURI).
Local Abbreviation loop :=
  (mergeLoop PrimaryTokens coin standardTag chainName toChecksum assetID
     logoURI).
Local Abbreviation generate :=
  (generateTokenlist PrimaryTokens coin standardTag chainName logoPath
     toChecksum assetID logoURI).

(** The pair handed on for a pair that [checkTradingPair] accepts. *)
Lemma orientedPair_accepted (fs : string -> bool) (p : PairInfo)
  (minLiquidity : Q) (allowlist : list string) :
  check fs p minLiquidity allowlist = Ok true ->
  exists t0 t1,
    token0 p = Some t0 /\ token1 p = Some t1
    /\ oriented p =
       (item0 <- canonical t0 ;;
        item1 <- canonical t1 ;;
        Ok (if isTokenPrimary PrimaryTokens t0 then (item0, item1)
            else (item1, item0))).
Proof.
  intros Hok. apply checkTradingPair_true_iff in Hok.
  destruct Hok as (_ & _ & t0 & t1 & H0 & H1 & _ & _ & Hprim).
  exists t0, t1. split; [exact H0|]. split; [exact H1|].
  unfold orientedPair. rewrite H0, H1. simpl.
  destruct (canonical t0) as [item0|e0]; simpl; [|reflexivity].
  destruct (canonical t1) as [item1|e1]; simpl; [|reflexivity].
  rewrite (primaryTokenIndex_present PrimaryTokens p H0 H1). simpl.
  destruct (isTokenPrimary PrimaryTokens t0); [reflexivity|].
  destruct (isTokenPrimary PrimaryTokens t1); [reflexivity|].
  destruct Hprim; discriminate.
Qed.

Lemma mergeLoop_completes (ps : list PairInfo) :
  forall tokens,
    snd (loop ps tokens) = None
    <-> forall p, In p ps -> exists ab, oriented p = Ok ab.
Proof.
  induction ps as [|p ps IH]; intros tokens; simpl.
  - split; [intros _ q [] | reflexivity].
  - destruct (oriented p) as [[a b]|e'] eqn:Hp; simpl.
    + rewrite IH. split.
      * intros H q [<- | Hq]; [now exists (a, b) | now apply H].
      * intros H q Hq. apply H. now right.
    + split; [discriminate|].
      intros H. destruct (H p (or_introl eq_refl)) as (ab & Hab).
      congruence.
Qed.

Lemma generateTokenlist_unfold (fs : string -> bool) (minLiquidity : Q)
  (allowlist : list string) (pairs : list raw) (base : list TokenItem) :
  generate fs minLiquidity allowlist pairs base =
  match loop (filterPairs PrimaryTokens logoPath fs minLiquidity allowlist
                pairs) base with
  | (tokens, None) => Ok tokens
  | (_, Some e) => Throw e
  end.
Proof.
  unfold generateTokenlist. now rewrite retrieveUniswapPairs_total.
Qed.

(** X11: when exactly one of the two tokens is primary, the pair handed to
    the merge does not depend on which of them the subgraph lists first. *)
Theorem orientation_order_independent (p : PairInfo) (t0 t1 : TokenInfo)
  (item0 item1 : TokenItem) :
  token0 p = Some t0 -> token1 p = Some t1 ->
  exactlyOnePrimary PrimaryTokens t0 t1 ->
  canonical t0 = Ok item0 -> canonical t1 = Ok item1 ->
  oriented (swapTokens p) = oriented p.
Proof.
  intros H0 H1 Hone C0 C1.
  rewrite (orientedPair_present PrimaryTokens _ _ _ _ _ _ p H0 H1 C0 C1).
  rewrite (orientedPair_present PrimaryTokens _ _ _ _ _ _ (swapTokens p)
             (t0 := t1) (t1 := t0) H1 H0 C1 C0).
  destruct Hone as [(-> & ->) | (-> & ->)]; reflexivity.
Qed.

(** X12: for a pair that [checkTradingPair] accepts, what the callback of
    [generateTokenlist] does before it calls [addPairIfNeeded] throws only
    what the checksum throws on the id of one of the two tokens: there the
    reads of the tokens and [primaryTokenIndex] do not throw. *)
Theorem accepted_pair_throw_origin (fs : string -> bool) (p : PairInfo)
  (minLiquidity : Q) (allowlist : list string) (e : error) :
  check fs p minLiquidity allowlist = Ok true ->
  oriented p = Throw e ->
  exists t, tokenOf p t /\ toChecksum (id t) = Throw e.
Proof.
  intros Hok Hthrow.
  destruct (@orientedPair_accepted _ _ _ _ Hok) as (t0 & t1 & H0 & H1 & Hor).
  rewrite Hor in Hthrow.
  destruct (canonical t0) as [item0|e0] eqn:C0; simpl in Hthrow.
  - destruct (canonical t1) as [item1|e1] eqn:C1; simpl in Hthrow;
      [discriminate|].
    injection Hthrow as ->. exists t1. split; [now right|].
    now apply tokenInfoFromSubgraphToken_throw in C1.
  - injection Hthrow as ->. exists t0. split; [now left|].
    now apply tokenInfoFromSubgraphToken_throw in C0.
Qed.

(** X14: when [checkTradingPair] accepts no pair of the input, the empty
    input included, [generateTokenlist] hands the base list on as it is. *)
Theorem generateTokenlist_nothing_accepted (fs : string -> bool)
  (minLiquidity : Q) (allowlist : list string) (pairs : list raw)
  (base : list TokenItem) :
  (forall p, In (Obj p) pairs ->
             check fs p minLiquidity allowlist <> Ok true) ->
  generate fs minLiquidity allowlist pairs base = Ok base.
Proof.
  intros Hnone. rewrite generateTokenlist_unfold.
  destruct (filterPairs PrimaryTokens logoPath fs minLiquidity allowlist pairs)
    as [|q qs] eqn:Hk; [reflexivity|].
  assert (Hq : In q (filterPairs PrimaryTokens logoPath fs minLiquidity
                       allowlist pairs)) by (rewrite Hk; now left).
  apply In_filterPairs in Hq. destruct Hq as (Hin & Hok).
  now destruct (Hnone q Hin).
Qed.

Lemma mergeLoop_keeps_addresses (ps : list PairInfo) :
  forall tokens x,
    In x (addresses tokens) -> In x (addresses (fst (loop ps tokens))).
Proof.
  induction ps as [|p ps IH]; intros tokens x Hx; simpl; [exact Hx|].
  destruct (oriented p) as [[a b]|e']; simpl; [|exact Hx].
  apply IH. apply addresses_addPairIfNeeded. auto.
Qed.

Lemma mergeLoop_has_addresses (ps : list PairInfo) :
  forall tokens p a b,
    snd (loop ps tokens) = None ->
    In p ps -> oriented p = Ok (a, b) ->
    In (address a) (addresses (fst (loop ps tokens)))
    /\ In (address b) (addresses (fst (loop ps tokens))).
Proof.
  induction ps as [|q ps IH]; intros tokens p a b Hnone Hp Hab; [destruct Hp|].
  simpl in *. destruct (oriented q) as [[a' b']|e'] eqn:Hq; simpl in *;
    [|discriminate].
  destruct Hp as [<- | Hp].
  - rewrite Hab in Hq. injection Hq as <- <-.
    split; apply mergeLoop_keeps_addresses, addresses_addPairIfNeeded; auto.
  - exact (IH _ p a b Hnone Hp Hab).
Qed.

Lemma mergeLoop_origin (ps : list PairInfo) :
  forall tokens t,
    In t (fst (loop ps tokens)) ->
    In t tokens
    \/ exists p a b, In p ps /\ oriented p = Ok (a, b) /\ (t = a \/ t = b).
Proof.
  induction ps as [|q ps IH]; intros tokens t Ht; simpl in *; [now left|].
  destruct (oriented q) as [[a b]|e'] eqn:Hq; simpl in *; [|now left].
  destruct (IH _ _ Ht) as [Hin | (p & a' & b' & Hp & Hab & Hor)].
  - apply In_addPairIfNeeded in Hin.
    destruct Hin as [-> | [-> | Hin]]; [right | right | now left];
      exists q, a, b; auto.
  - right. exists p, a', b'. auto.
Qed.

Lemma mergeLoop_fixed (ps : list PairInfo) (tokens : list TokenItem) :
  (forall p, In p ps ->
     exists a b, oriented p = Ok (a, b)
                 /\ In (address a) (addresses tokens)
                 /\ In (address b) (addresses tokens)) ->
  loop ps tokens = (tokens, None).
Proof.
  induction ps as [|q ps IH]; intros Hall; simpl; [reflexivity|].
  destruct (Hall q (or_introl eq_refl)) as (a & b & Hab & Ha & Hb).
  rewrite Hab, (addPairIfNeeded_present a b tokens Ha Hb).
  apply IH. intros p Hp. apply Hall. now right.
Qed.

Lemma oriented_tokens (fs : string -> bool) (p : PairInfo) (minLiquidity : Q)
  (allowlist : list string) (a b : TokenItem) :
  check fs p minLiquidity allowlist = Ok true ->
  oriented p = Ok (a, b) ->
  forall item,
    (exists t, tokenOf p t /\ canonical t = Ok item)
    <-> item = a \/ item = b.
Proof.
  intros Hok Hab item.
  destruct (orientedPair_accepted _ _ _ _ Hok) as (t0 & t1 & H0 & H1 & Hor).
  rewrite Hor in Hab.
  destruct (canonical t0) as [item0|e0] eqn:C0; simpl in Hab; [|discriminate].
  destruct (canonical t1) as [item1|e1] eqn:C1; simpl in Hab; [|discriminate].
  assert (Hset : (item = a \/ item = b) <-> (item = item0 \/ item = item1)).
  { destruct (isTokenPrimary PrimaryTokens t0); injection Hab as <- <-;
      tauto. }
  rewrite Hset. unfold tokenOf. split.
  - intros (t & [Ht | Ht] & Hc); rewrite Ht in *.
    + injection H0 as <-. left. congruence.
    + injection H1 as <-. right. congruence.
  - intros [-> | ->]; [exists t0 | exists t1]; auto.
Qed.

(** X15: when [generateTokenlist] completes, the address of each token of
    each pair of the input that [checkTradingPair] accepts is in the list
    it hands on. *)
Theorem generateTokenlist_lists_accepted (fs : string -> bool)
  (minLiquidity : Q) (allowlist : list string) (pairs : list raw)
  (base tokens : list TokenItem) (p : PairInfo) (t : TokenInfo) :
  generate fs minLiquidity allowlist pairs base = Ok tokens ->
  In (Obj p) pairs ->
  check fs p minLiquidity allowlist = Ok true ->
  tokenOf p t ->
  exists item, canonical t = Ok item /\ In (address item) (addresses tokens).
Proof.
  rewrite generateTokenlist_unfold.
  destruct (loop _ base) as [ts [e'|]] eqn:Hloop; [discriminate|].
  intros [= <-] Hin Hok Ht.
  assert (Hsnd : snd (loop (filterPairs PrimaryTokens logoPath fs minLiquidity
                              allowlist pairs) base) = None)
    by now rewrite Hloop.
  assert (Hp : In p (filterPairs PrimaryTokens logoPath fs minLiquidity
                       allowlist pairs)) by now apply In_filterPairs.
  destruct (proj1 (mergeLoop_completes _ _) Hsnd p Hp) as ([a b] & Hab).
  destruct (@mergeLoop_has_addresses _ _ _ _ _ Hsnd Hp Hab) as (Ha & Hb).
  rewrite Hloop in Ha, Hb. simpl in Ha, Hb.
  destruct (@orientedPair_accepted _ _ _ _ Hok) as (t0 & t1 & H0 & H1 & Hor).
  pose proof Hab as Hab'. rewrite Hor in Hab'.
  destruct (canonical t0) as [item0|e0] eqn:C0; simpl in Hab'; [|discriminate].
  destruct (canonical t1) as [item1|e1] eqn:C1; simpl in Hab'; [|discriminate].
  assert (Hitem : forall item, item = item0 \/ item = item1 ->
                               In (address item) (addresses ts)).
  { intros item Hitem.
    assert (Hor' : item = a \/ item = b).
    { apply (@oriented_tokens _ _ _ _ _ _ Hok Hab).
      destruct Hitem as [-> | ->]; [exists t0 | exists t1];
        unfold tokenOf; auto. }
    destruct Hor' as [-> | ->]; assumption. }
  destruct Ht as [Ht | Ht]; rewrite Ht in *.
  - injection H0 as <-. exists item0. auto.
  - injection H1 as <-. exists item1. auto.
Qed.

(** X16: every token of the list that [generateTokenlist] hands on is a
    token of the base list or the canonical form of a token of a pair of
    the input that [checkTradingPair] accepts. *)
Theorem generateTokenlist_origin (fs : string -> bool)
  (minLiquidity : Q) (allowlist : list string) (pairs : list raw)
  (base tokens : list TokenItem) (item : TokenItem) :
  generate fs minLiquidity allowlist pairs base = Ok tokens ->
  In item tokens ->
  In item base
  \/ exists p t,
       In (Obj p) pairs
       /\ check fs p minLiquidity allowlist = Ok true
       /\ tokenOf p t
       /\ canonical t = Ok item.
Proof.
  rewrite generateTokenlist_unfold.
  destruct (loop _ base) as [ts [e'|]] eqn:Hloop; [discriminate|].
  intros [= <-] Hitem.
  assert (Hfst : In item (fst (loop (filterPairs PrimaryTokens logoPath fs
                                       minLiquidity allowlist pairs) base)))
    by now rewrite Hloop.
  destruct (@mergeLoop_origin _ _ _ Hfst) as [Hb | (p & a & b & Hp & Hab & Hor)];
    [now left|].
  right. apply In_filterPairs in Hp. destruct Hp as (Hin & Hok).
  destruct (proj2 (@oriented_tokens _ _ _ _ _ _ Hok Hab item) Hor) as (t & Ht & Hc).
  exists p, t. auto.
Qed.

(** X17: a second run changes nothing: [generateTokenlist], run on the list
    it handed on with the same pairs, allowlist and logos, hands on that
    list again. *)
Theorem generateTokenlist_rerun (fs : string -> bool)
  (minLiquidity : Q) (allowlist : list string) (pairs : list raw)
  (base tokens : list TokenItem) :
  generate fs minLiquidity allowlist pairs base = Ok tokens ->
  generate fs minLiquidity allowlist pairs tokens = Ok tokens.
Proof.
  rewrite !generateTokenlist_unfold.
  destruct (loop _ base) as [ts [e'|]] eqn:Hloop; [discriminate|].
  intros [= <-].
  assert (Hsnd : snd (loop (filterPairs PrimaryTokens logoPath fs minLiquidity
                              allowlist pairs) base) = None)
    by now rewrite Hloop.
  rewrite mergeLoop_fixed; [reflexivity|].
  intros p Hp.
  destruct (proj1 (mergeLoop_completes _ _) Hsnd p Hp) as ([a b] & Hab).
  destruct (@mergeLoop_has_addresses _ _ _ _ _ Hsnd Hp Hab) as (Ha & Hb).
  rewrite Hloop in Ha, Hb. exists a, b. auto.
Qed.

End MergeMore.

(** ** Further properties of the decimals *)

Lemma read_digits_trailing (d : Decimal.uint) (c : ascii) (s : string) :
  digit_value 10 c = None ->
  forall acc,
    read_digits 10 (NilEmpty.string_of_uint d ++ String c s)%string acc
    = read_digits 10 (NilEmpty.string_of_uint d) acc.
Proof.
  intros Hc. induction d; intros acc;
    cbn [NilEmpty.string_of_uint append read_digits];
    [now rewrite Hc | ..]; eval_digit; apply IHd.
Qed.

Lemma parseInt_zero_then (c : ascii) (s : string) :
  c <> "x"%char -> c <> "X"%char ->
  parseInt (String "0" (String c s))
  = match read_digits 10 (String "0" (String c s)) None with
    | Some m => Num (1 * m)
    | None => NaN
    end.
Proof.
  intros Hx HX.
  destruct c as [[] [] [] [] [] [] [] []]; try reflexivity;
    exfalso; auto.
Qed.

(** The numeral of [d] written with at least one digit. *)
Lemma NilZero_as_NilEmpty (d : Decimal.uint) :
  exists d', d' <> Decimal.Nil
             /\ NilZero.string_of_uint d = NilEmpty.string_of_uint d'
             /\ Z.of_uint d' = Z.of_uint d.
Proof.
  destruct d; [exists (Decimal.D0 Decimal.Nil) | ..];
    try (split; [discriminate | split; reflexivity]);
    eexists; (split; [|split; reflexivity]); discriminate.
Qed.

Lemma parseInt_trailing (d : Decimal.uint) (c : ascii) (s : string) :
  digit_value 10 c = None -> c <> "x"%char -> c <> "X"%char ->
  parseInt (NilZero.string_of_uint d ++ String c s)%string
  = Num (Z.of_uint d).
Proof.
  intros Hc Hx HX.
  destruct (NilZero_as_NilEmpty d) as (d' & Hd' & -> & <-).
  transitivity
    (match read_digits 10 (NilEmpty.string_of_uint d' ++ String c s)%string
             None with
     | Some m => Num (1 * m)
     | None => NaN
     end).
  - destruct d' as [|l|l|l|l|l|l|l|l|l|l];
      try reflexivity; try contradiction.
    destruct l; try reflexivity.
    now apply parseInt_zero_then.
  - rewrite (@read_digits_trailing d' c s Hc), (read_digits_numeral Hd').
    now rewrite Z.mul_1_l.
Qed.

Lemma parseInt_negative (d : Decimal.uint) :
  parseInt (String "-" (NilZero.string_of_uint d)) = Num (- Z.of_uint d).
Proof.
  destruct (NilZero_as_NilEmpty d) as (d' & Hd' & -> & <-).
  transitivity
    (match read_digits 10 (NilEmpty.string_of_uint d') None with
     | Some m => Num (-1 * m)
     | None => NaN
     end).
  - destruct d' as [|l|l|l|l|l|l|l|l|l|l];
      try reflexivity; try contradiction.
    destruct l; reflexivity.
  - rewrite (read_digits_numeral Hd'). f_equal; lia.
Qed.

Section Decimals.

Variable coin : Z.
Variable standardTag : string.
Variable chainName : string.
Variable toChecksum : string -> result string.
Variable assetID : Z -> string -> string.
Variable logoURI : string -> string -> string -> string.

Local Abbreviation canonical :=
  (tokenInfoFromSubgraphToken coin standardTag chainName toChecksum assetID
     logoURI).

Lemma canonical_decimals (token : TokenInfo) (item : TokenItem) :
  canonical token = Ok item ->
  item_decimals item = parseInt (decimals token).
Proof.
  unfold tokenInfoFromSubgraphToken.
  destruct (toChecksum (id token)); simpl; [|discriminate].
  now intros [= <-].
Qed.

(** X18: what follows the leading numeral of the decimals is dropped
    without notice: a numeral followed by a character that is no digit (a
    point, a letter other than the [x] of a hexadecimal prefix, a blank)
    and by anything else is read as the numeral alone. *)
Theorem decimals_trailing_text_dropped (token : TokenInfo) (item : TokenItem)
  (d : Decimal.uint) (c : ascii) (s : string) :
  canonical token = Ok item ->
  decimals token = (NilZero.string_of_uint d ++ String c s)%string ->
  digit_value 10 c = None -> c <> "x"%char -> c <> "X"%char ->
  item_decimals item = Num (Z.of_uint d).
Proof.
  intros Hitem Hdec Hc Hx HX.
  rewrite (canonical_decimals _ Hitem), Hdec.
  now apply parseInt_trailing.
Qed.

(** X19: a minus sign is read: decimals written as a minus sign and a
    numeral give a token item with the opposite of the numeral, a negative
    number of decimals when the numeral is not zero. *)
Theorem decimals_minus_sign_read (token : TokenInfo) (item : TokenItem)
  (d : Decimal.uint) :
  canonical token = Ok item ->
  decimals token = String "-" (NilZero.string_of_uint d) ->
  item_decimals item = Num (- Z.of_uint d).
Proof.
  intros Hitem Hdec.
  rewrite (canonical_decimals _ Hitem), Hdec.
  apply parseInt_negative.
Qed.

End Decimals.

(** ** The further properties on the sample repository *)

Lemma acceptance_monotone_witness :
  checkTradingPair Ethereum.PrimaryTokens Sample.getChainAssetLogoPath
    Sample.logos (Sample.pairOf 2000000 Sample.weth Sample.tokenx) 500000
    ("0x00" :: Sample.allowlist)
  = Ok true.
Proof.
  eapply acceptance_monotone
    with (fs := Sample.logosOf [id Sample.weth; id Sample.tokenx])
         (minLiquidity := Ethereum.Uniswap_MinLiquidity)
         (allowlist := Sample.allowlist).
  - reflexivity.
  - vm_compute. discriminate.
  - intros a Ha. now right.
  - intros path Hpath. unfold Sample.logos, Sample.logosOf in *.
    simpl in *. apply orb_true_iff in Hpath.
    destruct Hpath as [-> | Hpath]; [reflexivity|].
    apply orb_true_iff in Hpath. destruct Hpath as [Hpath | Hpath];
      [|discriminate].
    rewrite Hpath. now rewrite !orb_true_r.
Defined.

Lemma allowlist_up_to_case_and_order_witness :
  checkTradingPair Ethereum.PrimaryTokens Sample.getChainAssetLogoPath
    Sample.logos (Sample.pairOf 2000000 Sample.weth Sample.tokenx)
    Ethereum.Uniswap_MinLiquidity
    ["0x6b175474e89094c44da98b954eedeac495271d0f";
     "0xc02aaa39b223fe8d0a0e5c4f27ead9083c756cc2"]
  = checkTradingPair Ethereum.PrimaryTokens Sample.getChainAssetLogoPath
      Sample.logos (Sample.pairOf 2000000 Sample.weth Sample.tokenx)
      Ethereum.Uniswap_MinLiquidity
      ["0xC02AAA39B223FE8D0A0E5C4F27EAD9083C756CC2";
       "0x6B175474E89094C44Da98b954EedeAC495271d0F";
       "0xc02aaa39b223fe8d0a0e5c4f27ead9083c756cc2"].
Proof.
  apply allowlist_up_to_case_and_order.
  intros a. simpl. tauto.
Defined.

Lemma pair_id_irrelevant_witness :
  checkTradingPair Ethereum.PrimaryTokens Sample.getChainAssetLogoPath
    Sample.logos
    (withId None (Sample.pairOf 2000000 Sample.weth Sample.tokenx))
    Ethereum.Uniswap_MinLiquidity Sample.allowlist
  = checkTradingPair Ethereum.PrimaryTokens Sample.getChainAssetLogoPath
      Sample.logos (Sample.pairOf 2000000 Sample.weth Sample.tokenx)
      Ethereum.Uniswap_MinLiquidity Sample.allowlist.
Proof.
  apply pair_id_irrelevant. right. left. discriminate.
Defined.

Lemma checkTradingPair_swap_witness :
  checkTradingPair Ethereum.PrimaryTokens Sample.getChainAssetLogoPath
    Sample.logos
    (swapTokens (Sample.pairOf 2000000 Sample.weth Sample.tokenx))
    Ethereum.Uniswap_MinLiquidity Sample.allowlist
  = checkTradingPair Ethereum.PrimaryTokens Sample.getChainAssetLogoPath
      Sample.logos (Sample.pairOf 2000000 Sample.weth Sample.tokenx)
      Ethereum.Uniswap_MinLiquidity Sample.allowlist.
Proof.
  eapply checkTradingPair_swap; reflexivity.
Defined.

Lemma nothing_supported_nothing_kept_witness :
  retrieveUniswapPairs Ethereum.PrimaryTokens Sample.getChainAssetLogoPath
    Sample.logos Ethereum.Uniswap_MinLiquidity []
    [Obj (Sample.pairOf 2000000 Sample.weth Sample.tokenx)]
  = Ok [].
Proof.
  apply nothing_supported_nothing_kept. now left.
Defined.

Lemma orientation_order_independent_witness :
  Sample.orientedPair
    (swapTokens (Sample.pairOf 2000000 Sample.weth Sample.tokenx))
  = Sample.orientedPair (Sample.pairOf 2000000 Sample.weth Sample.tokenx).
Proof.
  unfold Sample.orientedPair.
  eapply orientation_order_independent
    with (t0 := Sample.weth) (t1 := Sample.tokenx);
    try reflexivity.
  left. split; reflexivity.
Defined.

Lemma accepted_pair_throw_origin_witness :
  exists t,
    tokenOf (Sample.pairOf 2000000 Sample.weth Sample.tokeny) t
    /\ Sample.toChecksum (id t) = Throw InvalidAddress.
Proof.
  eapply accepted_pair_throw_origin
    with (PrimaryTokens := Ethereum.PrimaryTokens)
         (coin := Ethereum.coin) (standardTag := Ethereum.standardTag)
         (chainName := Ethereum.chainName)
         (logoPath := Sample.getChainAssetLogoPath)
         (assetID := Sample.assetID) (logoURI := Sample.logoURI)
         (fs := Sample.logos) (minLiquidity := Ethereum.Uniswap_MinLiquidity)
         (allowlist := Sample.allowlist).
  - reflexivity.
  - reflexivity.
Defined.

Lemma generateTokenlist_nothing_accepted_witness :
  Sample.generateTokenlist Sample.logos Ethereum.Uniswap_MinLiquidity
    Sample.allowlist
    [Obj (Sample.pairOf 500000 Sample.weth Sample.tokenx); Null]
    [Sample.item Sample.weth]
  = Ok [Sample.item Sample.weth].
Proof.
  unfold Sample.generateTokenlist.
  apply generateTokenlist_nothing_accepted.
  intros p [[= <-] | [H | []]]; [|discriminate H].
  vm_compute. discriminate.
Defined.

Lemma generateTokenlist_lists_accepted_witness :
  exists item,
    Sample.tokenInfoFromSubgraphToken Sample.tokenx = Ok item
    /\ In (address item)
         (addresses [Sample.item Sample.weth; Sample.item Sample.tokenx]).
Proof.
  unfold Sample.tokenInfoFromSubgraphToken.
  eapply generateTokenlist_lists_accepted
    with (PrimaryTokens := Ethereum.PrimaryTokens)
         (logoPath := Sample.getChainAssetLogoPath)
         (fs := Sample.logos)
         (minLiquidity := Ethereum.Uniswap_MinLiquidity)
         (allowlist := Sample.allowlist)
         (pairs := [Obj (Sample.pairOf 2000000 Sample.weth Sample.tokenx)])
         (base := [Sample.item Sample.weth])
         (p := Sample.pairOf 2000000 Sample.weth Sample.tokenx).
  - reflexivity.
  - now left.
  - reflexivity.
  - now right.
Defined.

Lemma generateTokenlist_origin_witness :
  In (Sample.item Sample.tokenx) [Sample.item Sample.weth]
  \/ exists p t,
       In (Obj p) [Obj (Sample.pairOf 2000000 Sample.weth Sample.tokenx)]
       /\ checkTradingPair Ethereum.PrimaryTokens Sample.getChainAssetLogoPath
            Sample.logos p Ethereum.Uniswap_MinLiquidity Sample.allowlist
          = Ok true
       /\ tokenOf p t
       /\ Sample.tokenInfoFromSubgraphToken t = Ok (Sample.item Sample.tokenx).
Proof.
  unfold Sample.tokenInfoFromSubgraphToken.
  eapply generateTokenlist_origin
    with (tokens := [Sample.item Sample.weth; Sample.item Sample.tokenx]).
  - reflexivity.
  - right. now left.
Defined.

Lemma generateTokenlist_rerun_witness :
  Sample.generateTokenlist Sample.logos Ethereum.Uniswap_MinLiquidity
    Sample.allowlist
    [Obj (Sample.pairOf 2000000 Sample.weth Sample.tokenx)]
    [Sample.item Sample.weth; Sample.item Sample.tokenx]
  = Ok [Sample.item Sample.weth; Sample.item Sample.tokenx].
Proof.
  unfold Sample.generateTokenlist.
  eapply generateTokenlist_rerun with (base := [Sample.item Sample.weth]).
  reflexivity.
Defined.

Lemma decimals_trailing_text_dropped_witness :
  item_decimals
    (Sample.item (mkTokenInfo (id Sample.tokenx) "TokenX" "Token X" "18.5"))
  = Num 18.
Proof.
  eapply decimals_trailing_text_dropped
    with (coin := Ethereum.coin) (standardTag := Ethereum.standardTag)
         (chainName := Ethereum.chainName) (toChecksum := Sample.toChecksum)
         (assetID := Sample.assetID) (logoURI := Sample.logoURI)
         (token := mkTokenInfo (id Sample.tokenx) "TokenX" "Token X" "18.5")
         (d := Decimal.D1 (Decimal.D8 Decimal.Nil))
         (c := "."%char) (s := "5").
  - reflexivity.
  - reflexivity.
  - reflexivity.
  - discriminate.
  - discriminate.
Defined.

Lemma decimals_minus_sign_read_witness :
  item_decimals
    (Sample.item (mkTokenInfo (id Sample.tokenx) "TokenX" "Token X" "-18"))
  = Num (-18).
Proof.
  eapply decimals_minus_sign_read
    with (coin := Ethereum.coin) (standardTag := Ethereum.standardTag)
         (chainName := Ethereum.chainName) (toChecksum := Sample.toChecksum)
         (assetID := Sample.assetID) (logoURI := Sample.logoURI)
         (token := mkTokenInfo (id Sample.tokenx) "TokenX" "Token X" "-18")
         (d := Decimal.D1 (Decimal.D8 Decimal.Nil)).
  - reflexivity.
  - reflexivity.
Defined.
